(** * secrethub/goreleaser: the Alpine packaging pipe and the S3 publish pipe

    A shallow embedding of [internal/pipe/alpine/alpine.go] and
    [internal/pipe/s3/s3.go].  Go strings are [string], Go maps are [gmap],
    the artifact registry is a list in registration order, and every call
    that leaves the process (file system, subprocess, template engine,
    object store) is an entry of a trace answered by an oracle. *)

From Stdlib Require Import ZArith List Ascii String.
From stdpp Require Import base option list strings pretty gmap.

Local Open Scope string_scope.
Local Open Scope list_scope.

(** ** Go's [path/filepath] on a slash-separated (Unix) file system *)

Module filepath.

(** [strings.Split(s, "/")]: the components between separators; the empty
    string has the single component [""]. *)
Fixpoint split (s : string) : list string :=
  match s with
  | EmptyString => [EmptyString]
  | String c s' =>
      if Ascii.eqb c "/"
      then EmptyString :: split s'
      else match split s' with
           | h :: t => String c h :: t
           | [] => [String c EmptyString]
           end
  end.

(** [strings.Join(elems, "/")]. *)
Fixpoint joinSep (elems : list string) : string :=
  match elems with
  | [] => ""
  | [e] => e
  | e :: rest => e +:+ "/" +:+ joinSep rest
  end.

Definition rooted (path : string) : bool :=
  match path with
  | String c _ => Ascii.eqb c "/"
  | EmptyString => false
  end.

(** One element of the path read by [Clean].  [out] is the output buffer
    as a stack of elements, newest first.  Empty and [.] elements are
    dropped; [..] removes the last real element, is kept when there is
    nothing to remove and the path is relative, and is dropped at the
    root. *)
Definition cleanStep (isRooted : bool) (out : list string) (elem : string)
  : list string :=
  if String.eqb elem "" then out
  else if String.eqb elem "." then out
  else if String.eqb elem ".." then
    match out with
    | top :: below =>
        if String.eqb top ".." then ".." :: out else below
    | [] => if isRooted then out else [".."]
    end
  else elem :: out.

Definition cleanElems (isRooted : bool) (elems : list string) : list string :=
  fold_left (cleanStep isRooted) elems [].

(** The buffer written back as a path: a leading separator for a rooted
    path, and [.] for an empty result. *)
Definition render (isRooted : bool) (out : list string) : string :=
  if isRooted then "/" +:+ joinSep (rev out)
  else match out with
       | [] => "."
       | _ => joinSep (rev out)
       end.

(** [filepath.Clean]. *)
Definition Clean (path : string) : string :=
  match path with
  | EmptyString => "."
  | _ => render (rooted path) (cleanElems (rooted path) (split path))
  end.

Fixpoint dropEmpty (elem : list string) : list string :=
  match elem with
  | [] => []
  | e :: rest => if String.eqb e "" then dropEmpty rest else elem
  end.

(** [filepath.Join]: leading empty elements are skipped, the rest is joined
    with the separator and cleaned; all empty gives the empty string. *)
Definition Join (elem : list string) : string :=
  match dropEmpty elem with
  | [] => ""
  | es => Clean (joinSep es)
  end.

Fixpoint dropTrailingEmpty (elems : list string) : list string :=
  match elems with
  | [] => []
  | e :: rest =>
      match dropTrailingEmpty rest with
      | [] => if String.eqb e "" then [] else [e]
      | rest' => e :: rest'
      end
  end.

(** [filepath.Base]: the last element of the path after trailing
    separators are removed; [.] for the empty path and [/] for a path of
    separators only. *)
Definition Base (path : string) : string :=
  match path with
  | EmptyString => "."
  | _ => match rev (dropTrailingEmpty (split path)) with
         | [] => "/"
         | last :: _ => last
         end
  end.

(** [filepath.Dir]: the path up to and including its last separator,
    cleaned. *)
Definition Dir (path : string) : string :=
  match rev (split path) with
  | _ :: before => match before with
                   | [] => Clean ""
                   | _ => Clean (joinSep (rev before) +:+ "/")
                   end
  | [] => Clean ""
  end.

End filepath.

(** ** Errors

    A Go [error] value.  [ErrSkip] is the value built by [pipe.Skip];
    [ErrMsg] an error made from a message inside the repository
    ([errors.New], [errors.Errorf], [fmt.Errorf]); [ErrExternal] an error
    handed back by a call that leaves the process, with its message;
    [ErrGroup] the combined error of a task group. *)

#[local] Set Warnings "-register-all".

Inductive error : Type :=
| ErrSkip (reason : string)
| ErrMsg (msg : string)
| ErrExternal (msg : string)
| ErrGroup (errs : list error).

Inductive result (A : Type) : Type :=
| Ok (a : A)
| Fail (e : error).
Arguments Ok {A} a.
Arguments Fail {A} e.

Definition newline : string := String (ascii_of_nat 10) EmptyString.

(** ** Artifacts ([internal/artifact]) *)

Module artifact.

(** Modelled from the spec: the [Type] enumeration of the artifact package,
    which is not part of the sources at hand.  The constructors are the
    kinds the two pipes name; the spec lists generic-binary and
    uploadable-binary as different kinds. *)
Inductive Type_ : Type :=
| UploadableArchive
| UploadableBinary
| Binary
| LinuxPackage
| Checksum
| Signature
| APK
| APKIndex.

#[global] Instance Type_eq_dec : EqDecision Type_.
Proof. solve_decision. Defined.

(** The fields of [artifact.Artifact] the pipes read and write.  [Extra] is
    a [map[string]interface{}]; the only values stored are strings. *)
Record Artifact : Type := {
  Type' : Type_;
  Name : string;
  Path : string;
  Goos : string;
  Goarch : string;
  Goarm : string;
  RepoDir : string;
  Extra : gmap string string
}.

(** Modelled from the spec: the filters of the artifact package (4.1 of the
    spec: composable boolean predicates, [Filter(p).List()] returns exactly
    the artifacts for which [p] holds, in registration order). *)
Definition Filter : Type := Artifact -> bool.

Definition ByType (t : Type_) : Filter := fun a => bool_decide (Type' a = t).
Definition ByGoos (s : string) : Filter := fun a => String.eqb (Goos a) s.
Definition ByGoarch (s : string) : Filter := fun a => String.eqb (Goarch a) s.
Definition ByGoarm (s : string) : Filter := fun a => String.eqb (Goarm a) s.
Definition And (filters : list Filter) : Filter :=
  fun a => forallb (fun f => f a) filters.
Definition Or (filters : list Filter) : Filter :=
  fun a => existsb (fun f => f a) filters.

End artifact.

Import artifact.

(** ** Configuration and context ([pkg/config], [pkg/context])

    The declarations are not part of the sources at hand; the records hold
    the fields the two pipes use. *)

Module config.

Record Alpine : Type := {
  Name : string;
  Root : string;
  Branch : string;
  Repository : string;
  Rel : Z;
  Contributor : string;
  Maintainer : string;
  Description : string;
  URL : string;
  License : string;
  CheckFn : string
}.

Record S3 : Type := {
  Bucket : string;
  Folder : string;
  Region : string;
  ACL : string;
  Endpoint : string;
  Profile : string;
  Artifacts : list string
}.

Record Build : Type := { Binary : string }.

Record Project : Type := {
  Dist : string;
  Builds : list Build;
  Alpines : list Alpine;
  S3s : list S3
}.

End config.

Module context.

Record Context : Type := {
  Config : config.Project;
  Version : string;
  Parallelism : Z
}.

End context.

Import context.

(** ** The outside world

    Every call that leaves the process is a [Call]; the answer is a
    [Response]: the value returned (a path, the captured output, the
    rendered text; empty where the call returns only an error) and the
    message of the error, if any.  Logging is left out. *)

(** [apkBuildData] of alpine.go, the data handed to the descriptor
    template. *)
Record apkBuildData : Type := {
  Info : config.Alpine;
  Binaries : gmap string string;
  BuildVersion : string;
  ProjectDir : string;
  MakeDepends : string
}.

(** The client built by [newS3Svc]. *)
Record S3Svc : Type := {
  SvcProfile : string;
  SvcEndpoint : string;
  SvcForcePathStyle : bool;
  SvcRegion : string
}.

(** [s3.PutObjectInput]; [Body] is the file opened by the unit, named by
    its path. *)
Record PutObjectInput : Type := {
  PutBucket : string;
  PutKey : string;
  PutBody : string;
  PutACL : string
}.

Inductive Call : Type :=
| Getwd
| MkdirAll (path : string) (perm : Z)
| Mkdir (path : string) (perm : Z)
| WriteFile (path : string) (data : string) (perm : Z)
| LookPath (file : string)
| Open (path : string)
| Create (path : string)
| Chmod (path : string) (perm : Z)
| Copy (dst src : string)
| CombinedOutput (name : string) (args : list string) (extraEnv : list string) (dir : string)
| TemplateParse (name : string)
| TemplateExecute (data : apkBuildData)
| TmplApply (ctx : Context) (s : string)
| CheckPipe (ctx : Context) (name : string)
| PutObject (svc : S3Svc) (input : PutObjectInput).

Record Response : Type := { out : string; err : option string }.

(** What has happened so far: the calls with their answers and the
    artifacts appended to the registry, oldest first.  The registry of the
    context ([ctx.Artifacts]) is the sequence of [Added] artifacts. *)
Inductive Event : Type :=
| Called (c : Call) (r : Response)
| Added (a : Artifact).

Definition World : Type := list Event.

(** The behaviour of the outside world: the answer to a call may depend on
    everything that happened before it. *)
Definition Oracle : Type := World -> Call -> Response.

(** State and error monad of the pipes: a computation runs in a world,
    extends it, and returns a value or an error. *)
Definition M (A : Type) : Type := World -> result A * World.

Definition ret {A} (a : A) : M A := fun w => (Ok a, w).

Definition fail {A} (e : error) : M A := fun w => (Fail e, w).

Definition bind {A B} (m : M A) (k : A -> M B) : M B :=
  fun w =>
    match m w with
    | (Ok a, w') => k a w'
    | (Fail e, w') => (Fail e, w')
    end.

Notation "'do' x <- m ; k" := (bind m (fun x => k))
  (at level 10, x binder, m at level 100, k at level 200).

(** A Go [for ... range] loop whose body returns on the first error. *)
Fixpoint forEach {A} (l : list A) (body : A -> M unit) : M unit :=
  match l with
  | [] => ret tt
  | x :: rest => do _ <- body x; forEach rest body
  end.

(** The registry, read and appended. *)
Definition registered (w : World) : list Artifact :=
  omap (fun e => match e with Added a => Some a | Called _ _ => None end) w.

(** [ctx.Artifacts.Filter(f).List()]: modelled from the spec, see
    [artifact.Filter]. *)
Definition FilterList (f : artifact.Filter) : M (list Artifact) :=
  fun w => (Ok (List.filter f (registered w)), w).

(** [ctx.Artifacts.Add(a)]: appends, never fails. *)
Definition Add (a : Artifact) : M unit :=
  fun w => (Ok tt, w ++ [Added a]).

Section Sys.

Variable os : Oracle.

(** Perform a call and hand back its answer, error included. *)
Definition sys (c : Call) : M Response :=
  fun w => let r := os w c in (Ok r, w ++ [Called c r]).

(** [if err != nil { return err }]. *)
Definition check (r : Response) : M string :=
  match err r with
  | Some msg => fail (ErrExternal msg)
  | None => ret (out r)
  end.

Definition try (c : Call) : M string := do r <- sys c; check r.

End Sys.

(** ** [internal/pipe]: the skip signal *)

Module pipe.

(** Modelled from the spec: [pipe.Skip] of the pipe package, which is not
    part of the sources at hand.  It builds the "not configured" signal, a
    value told apart from every other outcome by [IsSkip]. *)
Definition Skip (reason : string) : error := ErrSkip reason.

Definition IsSkip (e : error) : bool :=
  match e with
  | ErrSkip _ => true
  | _ => false
  end.

End pipe.

(** ** [internal/semerrgroup]: the bounded task group *)

Module semerrgroup.

(** Modelled from the spec: the task group of [internal/semerrgroup], which
    is not part of the sources at hand (4.2 of the spec).  [Go] schedules a
    unit, a failing unit stops no other unit, and [Wait] returns one error
    combining every failure, or nil.  The units are run one at a time in
    the order they are scheduled, which is the execution a ceiling of one
    gives; [limit] is kept as configured. *)
Record Group : Type := { limit : Z; failures : list error }.

Definition New (limit : Z) : Group := {| limit := limit; failures := [] |}.

Definition Go (g : Group) (fn : M unit) : M Group :=
  fun w =>
    match fn w with
    | (Ok _, w') => (Ok g, w')
    | (Fail e, w') =>
        (Ok {| limit := limit g; failures := failures g ++ [e] |}, w')
    end.

Definition Wait (g : Group) : M unit :=
  match failures g with
  | [] => ret tt
  | errs => fail (ErrGroup errs)
  end.

End semerrgroup.

(** [for _, x := range l { g.Go(func() error { return unit(x) }) }]. *)
Fixpoint goEach {A} (g : semerrgroup.Group) (l : list A) (fn : A -> M unit)
  : M semerrgroup.Group :=
  match l with
  | [] => ret g
  | x :: rest => do g' <- semerrgroup.Go g (fn x); goEach g' rest fn
  end.

(** ** [internal/pipe/alpine] *)

Module alpine.

Definition apkBuildFileName : string := "APKBUILD".
Definition apkIndexFileName : string := "APKINDEX.tar.gz".
Definition abuildOutputDir : string := "dist".

Definition ErrNoAlpineKeys : error :=
  ErrMsg "environment variables PACKAGER_PUBKEY and PACKAGER_PRIVKEY need to be set".

Section Pipe.

(** [os.Getenv("PACKAGER_PUBKEY")] and [os.Getenv("PACKAGER_PRIVKEY")], read
    once when the package is loaded. *)
Variables pubKeyPath privKeyPath : string.

Variable os : Oracle.

(** The defaults set on one package spec by the body of the loop of
    [Default]. *)
Definition setDefaults (a : config.Alpine) : config.Alpine :=
  let root := if String.eqb (config.Root a) "" then "alpine" else config.Root a in
  let branch := if String.eqb (config.Branch a) "" then "edge" else config.Branch a in
  let repository :=
    if String.eqb (config.Repository a) "" then "main" else config.Repository a in
  {| config.Name := config.Name a;
     config.Root := root;
     config.Branch := branch;
     config.Repository := repository;
     config.Rel := config.Rel a;
     config.Contributor := config.Contributor a;
     config.Maintainer := config.Maintainer a;
     config.Description := config.Description a;
     config.URL := config.URL a;
     config.License := config.License a;
     config.CheckFn := config.CheckFn a |}.

(** The loop of [Default] over [ctx.Config.Alpine]: each spec gets its
    defaults in place, then the keys are checked; the loop returns at the
    first spec when a key is missing. *)
Fixpoint defaultAlpines (l : list config.Alpine)
  : list config.Alpine * option error :=
  match l with
  | [] => ([], None)
  | a :: rest =>
      if String.eqb pubKeyPath "" || String.eqb privKeyPath ""
      then (setDefaults a :: rest, Some ErrNoAlpineKeys)
      else let '(rest', e) := defaultAlpines rest in
           (setDefaults a :: rest', e)
  end.

(** [Pipe.Default]: the context as left by the call, and the error
    returned. *)
Definition Default (ctx : Context) : Context * option error :=
  let cfg := Config ctx in
  let '(alpines, e) := defaultAlpines (config.Alpines cfg) in
  ({| Config := {| config.Dist := config.Dist cfg;
                   config.Builds := config.Builds cfg;
                   config.Alpines := alpines;
                   config.S3s := config.S3s cfg |};
      Version := Version ctx;
      Parallelism := Parallelism ctx |}, e).

(** The [switch arch] of [Run]: the native name of a Go architecture. *)
Definition alpineArch (goarch : string) : string :=
  if String.eqb goarch "386" then "x86"
  else if String.eqb goarch "amd64" then "x86_64"
  else goarch.

(** The binaries map built by [generateApkBuildFile]. *)
Definition binariesOf (builds : list config.Build) : gmap string string :=
  fold_left
    (fun binaries build =>
       let binary := filepath.Base (config.Binary build) in
       <[binary := filepath.Join ["$pkgarch"; binary]]> binaries)
    builds ∅.

(** [buildApkBuildFile]: parse the descriptor template, named after the
    package, and execute it on the data.  The text/template engine is
    outside the repository; both steps are calls. *)
Definition buildApkBuildFile (data : apkBuildData) : M string :=
  do _ <- try os (TemplateParse (config.Name (Info data)));
  try os (TemplateExecute data).

Definition generateApkBuildFile (ctx : Context) (info : config.Alpine) : M string :=
  let data := {| Info := info;
                 Binaries := binariesOf (config.Builds (Config ctx));
                 BuildVersion := Version ctx;
                 ProjectDir := "";
                 MakeDepends := "" |} in
  buildApkBuildFile data.

(** [fmt.Errorf("%s:\n%s", err, string(output))]. *)
Definition toolError (r : Response) : M unit :=
  match err r with
  | Some msg => fail (ErrMsg (msg +:+ ":" +:+ newline +:+ out r))
  | None => ret tt
  end.

Definition apkFileNameOf (ctx : Context) (alpine : config.Alpine) : string :=
  config.Name alpine +:+ "-" +:+ Version ctx +:+ "-r"
    +:+ pretty (config.Rel alpine) +:+ ".apk".

(** The artifact registered for the package built for one binary. *)
Definition apkArtifact (ctx : Context) (alpine : config.Alpine) (localPath : string)
    (repoPath : string) (binArtifact : Artifact) : Artifact :=
  let arch := alpineArch (Goarch binArtifact) in
  let abuildOutputPath := filepath.Join [localPath; abuildOutputDir; arch] in
  let apkFileName := apkFileNameOf ctx alpine in
  {| Type' := APK;
     artifact.Name := apkFileName;
     Path := filepath.Join [abuildOutputPath; apkFileName];
     Goos := "linux";
     Goarch := Goarch binArtifact;
     Goarm := "";
     RepoDir := filepath.Join [repoPath; arch];
     Extra := {[ "AlpineArch" := arch ]} |}.

(** The artifact registered for the signed index. *)
Definition apkIndexArtifact (localPath : string) (repoPath : string)
    (binArtifact : Artifact) : Artifact :=
  let arch := alpineArch (Goarch binArtifact) in
  let abuildOutputPath := filepath.Join [localPath; abuildOutputDir; arch] in
  {| Type' := APKIndex;
     artifact.Name := apkIndexFileName;
     Path := filepath.Join [abuildOutputPath; apkIndexFileName];
     Goos := "linux";
     Goarch := Goarch binArtifact;
     Goarm := "";
     RepoDir := filepath.Join [repoPath; arch];
     Extra := {[ "AlpineArch" := arch ]} |}.

(** The body of the inner loop of [Run]: the chain of one binary, that is
    of one target architecture. *)
Definition packageArch (ctx : Context) (alpine : config.Alpine)
    (pwd localPath localPathAbs repoPath pubKeyName : string)
    (binArtifact : Artifact) : M unit :=
  let arch := alpineArch (Goarch binArtifact) in
  let binDir := filepath.Join [localPath; arch] in
  do _ <- try os (Mkdir binDir 448);
  do _ <- try os (Open (Path binArtifact));
  let destPath := filepath.Join [binDir; filepath.Base (Path binArtifact)] in
  do _ <- try os (Create destPath);
  do _ <- sys os (Chmod destPath 365);
  do _ <- try os (Copy destPath (Path binArtifact));
  do built <- sys os (CombinedOutput "abuild" ["-P"; localPathAbs; "-r"]
                        ["CBUILD=" +:+ arch] localPath);
  do _ <- toolError built;
  let abuildOutputPath := filepath.Join [localPath; abuildOutputDir; arch] in
  do _ <- Add (apkArtifact ctx alpine localPath repoPath binArtifact);
  let apkIndexPath := filepath.Join [abuildOutputPath; apkIndexFileName] in
  let apkIndexPathAbs := filepath.Join [pwd; apkIndexPath] in
  do signed <- sys os (CombinedOutput "abuild-sign" [apkIndexPathAbs; "-p"; pubKeyName]
                         [] localPath);
  do _ <- toolError signed;
  Add (apkIndexArtifact localPath repoPath binArtifact).

(** The filter of [Run]. *)
Definition binaryFilter : artifact.Filter :=
  artifact.And [artifact.ByGoos "linux"; artifact.ByGoarm ""; artifact.ByType Binary].

(** The body of the outer loop of [Run]: one configured package spec. *)
Definition packageSpec (ctx : Context) (alpine : config.Alpine) : M unit :=
  do artifacts <- FilterList binaryFilter;
  do pwd <- try os Getwd;
  let localPath :=
    filepath.Join [config.Dist (Config ctx); "alpine-" +:+ config.Name alpine] in
  let localPathAbs := filepath.Join [pwd; localPath] in
  do _ <- try os (MkdirAll localPath 448);
  do apkBuild <- generateApkBuildFile ctx alpine;
  do _ <- sys os (WriteFile (filepath.Join [localPath; apkBuildFileName]) apkBuild 420);
  do _ <- try os (LookPath "abuild");
  let repoPath :=
    filepath.Join [config.Root alpine; config.Branch alpine; config.Repository alpine] in
  let pubKeyName := filepath.Dir pubKeyPath in
  forEach artifacts
    (packageArch ctx alpine pwd localPath localPathAbs repoPath pubKeyName).

(** [Pipe.Run]. *)
Definition Run (ctx : Context) : M unit :=
  match config.Alpines (Config ctx) with
  | [] => fail (pipe.Skip "alpine section is not configured")
  | alpines => forEach alpines (packageSpec ctx)
  end.

End Pipe.

End alpine.

(** ** [internal/pipe/s3] *)

Module s3.

Definition artifactTypes : gmap string artifact.Type_ :=
  list_to_map
    [ ("archive", UploadableArchive);
      ("binary", UploadableBinary);
      ("nfpm", LinuxPackage);
      ("checksum", Checksum);
      ("signature", Signature);
      ("apk", APK);
      ("apkindex", APKIndex) ].

(** The defaults set on one destination by the body of the loop of
    [Default]. *)
Definition setDefaults (s3 : config.S3) : config.S3 :=
  if String.eqb (config.Bucket s3) "" then s3
  else
    {| config.Bucket := config.Bucket s3;
       config.Folder := config.Folder s3;
       config.Region :=
         if String.eqb (config.Region s3) "" then "us-east-1" else config.Region s3;
       config.ACL := if String.eqb (config.ACL s3) "" then "private" else config.ACL s3;
       config.Endpoint := config.Endpoint s3;
       config.Profile := config.Profile s3;
       config.Artifacts := config.Artifacts s3 |}.

(** [Pipe.Default]. *)
Definition Default (ctx : Context) : Context * option error :=
  let cfg := Config ctx in
  ({| Config := {| config.Dist := config.Dist cfg;
                   config.Builds := config.Builds cfg;
                   config.Alpines := config.Alpines cfg;
                   config.S3s := map setDefaults (config.S3s cfg) |};
      Version := Version ctx;
      Parallelism := Parallelism ctx |}, None).

Definition newS3Svc (conf : config.S3) : S3Svc :=
  {| SvcProfile := config.Profile conf;
     SvcEndpoint := config.Endpoint conf;
     SvcForcePathStyle := negb (String.eqb (config.Endpoint conf) "");
     SvcRegion := config.Region conf |}.

(** The loop of [upload] over [conf.Artifacts]: one [ByType] filter per
    configured name, an error at the first name that is not a key of
    [artifactTypes]. *)
Fixpoint typeFilters (filters : list artifact.Filter) (names : list string)
  : result (list artifact.Filter) :=
  match names with
  | [] => Ok filters
  | artTypeStr :: rest =>
      match artifactTypes !! artTypeStr with
      | Some artType => typeFilters (filters ++ [artifact.ByType artType]) rest
      | None => Fail (ErrMsg ("unknown artifact type: " +:+ artTypeStr))
      end
  end.

Section Pipe.

Variable os : Oracle.

(** The unit of work scheduled by [upload] for one artifact. *)
Definition uploadUnit (svc : S3Svc) (bucket folder : string) (conf : config.S3)
    (a : Artifact) : M unit :=
  do _ <- try os (Open (Path a));
  let path := filepath.Join [folder; RepoDir a; artifact.Name a] in
  do _ <- try os (PutObject svc {| PutBucket := bucket;
                                   PutKey := path;
                                   PutBody := Path a;
                                   PutACL := config.ACL conf |});
  ret tt.

Definition upload (ctx : Context) (conf : config.S3) : M unit :=
  let svc := newS3Svc conf in
  do bucket <- try os (TmplApply ctx (config.Bucket conf));
  do folder <- try os (TmplApply ctx (config.Folder conf));
  match typeFilters [] (config.Artifacts conf) with
  | Fail e => fail e
  | Ok filters =>
      let g := semerrgroup.New (Parallelism ctx) in
      do artifacts <- FilterList (artifact.Or filters);
      do g' <- goEach g artifacts (uploadUnit svc bucket folder conf);
      semerrgroup.Wait g'
  end.

(** [Pipe.Publish]. *)
Definition Publish (ctx : Context) : M unit :=
  match config.S3s (Config ctx) with
  | [] => fail (pipe.Skip "s3 section is not configured")
  | confs =>
      do _ <- try os (CheckPipe ctx "s3");
      let g := semerrgroup.New (Parallelism ctx) in
      do g' <- goEach g confs (upload ctx);
      semerrgroup.Wait g'
  end.

End Pipe.

End s3.

(** ** Definitions used to state the properties *)

(** A path element: no separator inside. *)
Fixpoint noSlash (s : string) : bool :=
  match s with
  | EmptyString => true
  | String c s' => negb (Ascii.eqb c "/") && noSlash s'
  end.

(** The shape of the buffer of [Clean]: real elements on top of the [..]
    elements that a relative path could not remove. *)
Definition goodElem (e : string) : Prop :=
  noSlash e = true /\ e <> "" /\ e <> ".".

Inductive buffer (isRooted : bool) : list string -> Prop :=
| buffer_nil : buffer isRooted []
| buffer_real e out :
    goodElem e -> e <> ".." -> buffer isRooted out -> buffer isRooted (e :: out)
| buffer_dotdot out :
    isRooted = false -> Forall (fun e => e = "..") out ->
    buffer isRooted (".." :: out).

(** Running every unit of a fan-out, one after the other, whatever the
    others return: the outcome of each unit and the world they leave. *)
Fixpoint runAll {A} (fn : A -> M unit) (l : list A) (w : World)
  : list (result unit) * World :=
  match l with
  | [] => ([], w)
  | x :: rest =>
      let '(r, w1) := fn x w in
      let '(rs, w2) := runAll fn rest w1 in
      (r :: rs, w2)
  end.

Definition failuresOf (rs : list (result unit)) : list error :=
  omap (fun r => match r with Fail e => Some e | Ok _ => None end) rs.

(** Nil when nothing failed, one error holding every failure otherwise. *)
Definition combined (errs : list error) : result unit :=
  match errs with
  | [] => Ok tt
  | _ => Fail (ErrGroup errs)
  end.

(** Kinds of events. *)
Definition isFileCall (e : Event) : bool :=
  match e with
  | Called (Mkdir _ _) _ | Called (Open _) _ | Called (Create _) _
  | Called (Chmod _ _) _ | Called (Copy _ _) _ => true
  | _ => false
  end.

Definition isSetupCall (e : Event) : bool :=
  match e with
  | Called Getwd _ | Called (MkdirAll _ _) _ | Called (TemplateParse _) _
  | Called (TemplateExecute _) _ | Called (WriteFile _ _ _) _
  | Called (LookPath _) _ => true
  | _ => false
  end.

Definition isSubprocess (e : Event) : bool :=
  match e with
  | Called (CombinedOutput _ _ _ _) _ => true
  | _ => false
  end.

Definition isTmplApply (e : Event) : bool :=
  match e with
  | Called (TmplApply _ _) _ => true
  | _ => false
  end.

Definition isUpload (e : Event) : bool :=
  match e with
  | Called (PutObject _ _) _ => true
  | _ => false
  end.

(** The working directory of a package spec, and its repository path. *)
Definition localPathOf (ctx : Context) (spec : config.Alpine) : string :=
  filepath.Join [config.Dist (Config ctx); "alpine-" +:+ config.Name spec].

Definition repoPathOf (spec : config.Alpine) : string :=
  filepath.Join [config.Root spec; config.Branch spec; config.Repository spec].

(** The package and index artifacts of a spec and a binary. *)
Definition producedBy (ctx : Context) (spec : config.Alpine) (bin a : Artifact) : Prop :=
  a = alpine.apkArtifact ctx spec (localPathOf ctx spec) (repoPathOf spec) bin
  \/ a = alpine.apkIndexArtifact (localPathOf ctx spec) (repoPathOf spec) bin.

(** The two artifacts of a spec and a binary, in the order [Run] registers
    them. *)
Definition packagePair (ctx : Context) (spec : config.Alpine) (bin : Artifact)
  : list Artifact :=
  [alpine.apkArtifact ctx spec (localPathOf ctx spec) (repoPathOf spec) bin;
   alpine.apkIndexArtifact (localPathOf ctx spec) (repoPathOf spec) bin].

(** An error that is neither the skip signal nor a combined error. *)
Definition plainError (e : error) : Prop :=
  (exists msg, e = ErrExternal msg) \/ (exists msg, e = ErrMsg msg).

(** The data handed to the descriptor template for a spec. *)
Definition descriptorData (ctx : Context) (spec : config.Alpine) : apkBuildData :=
  {| Info := spec;
     Binaries := alpine.binariesOf (config.Builds (Config ctx));
     BuildVersion := Version ctx;
     ProjectDir := "";
     MakeDepends := "" |}.

(** The calls of the chain of one architecture. *)
Definition buildCall (localPath localPathAbs : string) (bin : Artifact) : Call :=
  CombinedOutput "abuild" ["-P"; localPathAbs; "-r"]
    ["CBUILD=" +:+ alpine.alpineArch (Goarch bin)] localPath.

Definition signCall (pwd localPath pubKeyName : string) (bin : Artifact) : Call :=
  CombinedOutput "abuild-sign"
    [filepath.Join
       [pwd;
        filepath.Join
          [filepath.Join [localPath; alpine.abuildOutputDir; alpine.alpineArch (Goarch bin)];
           alpine.apkIndexFileName]];
     "-p"; pubKeyName]
    [] localPath.

Definition openedPath (e : Event) : option string :=
  match e with
  | Called (Open path) _ => Some path
  | _ => None
  end.

Definition uploadedKey (e : Event) : option string :=
  match e with
  | Called (PutObject _ input) _ => Some (PutKey input)
  | _ => None
  end.

(** The fan-out as [upload] and [Publish] write it: a new group, one [Go]
    per element, [Wait]. *)
Definition fanOut {A} (limit : Z) (l : list A) (fn : A -> M unit) : M unit :=
  do g <- goEach (semerrgroup.New limit) l fn; semerrgroup.Wait g.

(** The vocabulary of the publish filter. *)
Definition vocabulary : list string :=
  ["archive"; "binary"; "nfpm"; "checksum"; "signature"; "apk"; "apkindex"].

Definition inVocabulary (name : string) : bool :=
  existsb (String.eqb name) vocabulary.

(** An artifact whose type is named by one of the configured kinds. *)
Definition kindSelected (names : list string) (a : Artifact) : bool :=
  existsb (fun name => bool_decide (s3.artifactTypes !! name = Some (Type' a))) names.

(** The client and the input of the uploads among some events. *)
Definition uploadOf (e : Event) : option (S3Svc * PutObjectInput) :=
  match e with
  | Called (PutObject svc input) _ => Some (svc, input)
  | _ => None
  end.

Definition isOpenOrUpload (e : Event) : bool :=
  match e with
  | Called (Open _) _ | Called (PutObject _ _) _ => true
  | _ => false
  end.

Definition openedOk (e : Event) : bool :=
  match e with
  | Called (Open _) r => bool_decide (err r = None)
  | _ => false
  end.

(** The calls the publish pipe makes. *)
Definition isPublishCall (e : Event) : bool :=
  match e with
  | Called (CheckPipe _ _) _ | Called (TmplApply _ _) _
  | Called (Open _) _ | Called (PutObject _ _) _ => true
  | _ => false
  end.

(** The first configured name that is not in the vocabulary. *)
Definition firstUnknown (names : list string) : option string :=
  List.find (fun name => negb (inVocabulary name)) names.

(** ** Sample worlds, used to run the pipes on concrete inputs *)

(** What a call returns when it succeeds: a working directory, the path of
    a tool, the folder template resolved against the version of the
    release. *)
Definition answer (c : Call) : string :=
  match c with
  | Getwd => "/work"
  | LookPath file => "/usr/bin/" +:+ file
  | TmplApply ctx s =>
      if String.eqb s "releases/{{.Version}}" then "releases/" +:+ Version ctx else s
  | _ => ""
  end.

Definition allSucceed : Oracle :=
  fun _ c => {| out := answer c; err := None |}.

(** The calls selected by [bad] fail with [msg], the others succeed. *)
Definition failingOn (bad : Call -> bool) (msg : string) : Oracle :=
  fun _ c =>
    if bad c then {| out := ""; err := Some msg |}
    else {| out := answer c; err := None |}.

Definition isWriteFile (c : Call) : bool :=
  match c with WriteFile _ _ _ => true | _ => false end.

Definition isSign (c : Call) : bool :=
  match c with
  | CombinedOutput name _ _ _ => String.eqb name "abuild-sign"
  | _ => false
  end.

Definition isTemplate (c : Call) : bool :=
  match c with TmplApply _ _ => true | _ => false end.

Definition opens (paths : list string) (c : Call) : bool :=
  match c with
  | Open path => existsb (String.eqb path) paths
  | _ => false
  end.

Definition sampleSpec : config.Alpine :=
  {| config.Name := "app";
     config.Root := "alpine";
     config.Branch := "edge";
     config.Repository := "main";
     config.Rel := 1;
     config.Contributor := "";
     config.Maintainer := "";
     config.Description := "";
     config.URL := "";
     config.License := "MIT";
     config.CheckFn := "" |}.

Definition sampleS3 (kinds : list string) : config.S3 :=
  {| config.Bucket := "downloads";
     config.Folder := "releases/{{.Version}}";
     config.Region := "us-east-1";
     config.ACL := "private";
     config.Endpoint := "";
     config.Profile := "";
     config.Artifacts := kinds |}.

Definition sampleCtx (specs : list config.Alpine) (dests : list config.S3) : Context :=
  {| Config := {| config.Dist := "dist";
                  config.Builds := [ {| config.Binary := "app" |} ];
                  config.Alpines := specs;
                  config.S3s := dests |};
     Version := "1.2.3";
     Parallelism := 4 |}.

Definition sampleArtifact (kind : artifact.Type_) (name : string) : Artifact :=
  {| Type' := kind;
     artifact.Name := name;
     Path := "dist/" +:+ name;
     Goos := "linux";
     Goarch := "amd64";
     Goarm := "";
     RepoDir := "";
     Extra := ∅ |}.

(** A computation that only adds events to the world. *)
Definition extends {A} (m : M A) : Prop :=
  forall w, exists evs, snd (m w) = w ++ evs.

(** A file system on which [os.Mkdir] fails for a directory that an
    earlier, successful [os.Mkdir] has created. *)
Definition exclusiveMkdir (os : Oracle) : Prop :=
  forall (h : World) (path : string) (perm perm' : Z) (r : Response),
    In (Called (Mkdir path perm) r) h -> err r = None ->
    err (os h (Mkdir path perm')) <> None.

Definition createdDir (path : string) (e : Event) : bool :=
  match e with
  | Called (Mkdir made _) r => String.eqb path made && bool_decide (err r = None)
  | _ => false
  end.

(** Every call succeeds, except [Mkdir] of a directory made before. *)
Definition strictMkdir : Oracle :=
  fun h c =>
    match c with
    | Mkdir path _ =>
        if existsb (createdDir path) h
        then {| out := ""; err := Some "file exists" |}
        else {| out := ""; err := None |}
    | _ => {| out := answer c; err := None |}
    end.

Definition failedWrite (e : Event) : bool :=
  match e with
  | Called (WriteFile _ _ _) r => bool_decide (err r <> None)
  | _ => false
  end.

(** * Properties *)

(** ** Paths *)

Section PathLemmas.

Import filepath.

Lemma split_cons_inv (s : string) : exists h t, split s = h :: t.
Proof.
  destruct s as [|c s]; simpl; [eauto|].
  destruct (Ascii.eqb c "/"); [eauto|].
  destruct (split s); eauto.
Qed.

Lemma split_noSlash (s : string) : Forall (fun e => noSlash e = true) (split s).
Proof.
  induction s as [|c s IH]; simpl.
  - repeat constructor.
  - destruct (Ascii.eqb c "/") eqn:Hc.
    + constructor; [reflexivity|exact IH].
    + destruct (split s) as [|h t].
      * constructor; [simpl; rewrite Hc; reflexivity|constructor].
      * inversion IH; subst. constructor; [simpl; rewrite Hc; assumption|assumption].
Qed.

Lemma split_app_slash (s1 s2 : string) :
  split (s1 +:+ "/" +:+ s2) = split s1 ++ split s2.
Proof.
  induction s1 as [|c s1 IH]; simpl.
  - reflexivity.
  - destruct (Ascii.eqb c "/"); simpl.
    + rewrite IH. reflexivity.
    + rewrite IH. destruct (split_cons_inv s1) as (h & t & ->). reflexivity.
Qed.

Lemma split_noSlash_id (s : string) : noSlash s = true -> split s = [s].
Proof.
  induction s as [|c s IH]; simpl; [reflexivity|].
  intros H. apply andb_prop in H as [Hc Hs].
  destruct (Ascii.eqb c "/"); [discriminate|].
  rewrite (IH Hs). reflexivity.
Qed.

Lemma split_joinSep (l : list string) :
  l <> [] -> Forall (fun e => noSlash e = true) l -> split (joinSep l) = l.
Proof.
  induction l as [|e l IH]; [congruence|].
  intros _ Hall. inversion Hall as [|? ? He Hl]; subst.
  destruct l as [|e' l].
  - simpl. apply split_noSlash_id, He.
  - change (joinSep (e :: e' :: l)) with (e +:+ "/" +:+ joinSep (e' :: l)).
    rewrite split_app_slash, (split_noSlash_id e He), IH by (congruence || assumption).
    reflexivity.
Qed.

Lemma rooted_app (p x : string) : p <> "" -> rooted (p +:+ x) = rooted p.
Proof. destruct p; [congruence|reflexivity]. Qed.

Lemma buffer_all_dotdot (r : bool) (out : list string) :
  r = false -> Forall (fun e => e = "..") out -> buffer r out.
Proof.
  intros Hr Hall. destruct Hall as [|e out He Hout]; [constructor|].
  subst e. apply buffer_dotdot; assumption.
Qed.

Lemma buffer_good (r : bool) (out : list string) :
  buffer r out -> Forall goodElem out.
Proof.
  induction 1 as [|e out He Hne Hb IH|out Hr Hall].
  - constructor.
  - constructor; assumption.
  - assert (goodElem "..") as Hdd by (repeat split; discriminate).
    constructor; [exact Hdd|].
    eapply Forall_impl; [exact Hall|]. simpl. intros e ->. exact Hdd.
Qed.

Lemma eqb_false_ne (a b : string) : String.eqb a b = false -> a <> b.
Proof. apply String.eqb_neq. Qed.

Lemma cleanStep_buffer (r : bool) (out : list string) (e : string) :
  noSlash e = true -> buffer r out -> buffer r (cleanStep r out e).
Proof.
  intros He Hb. unfold cleanStep.
  destruct (String.eqb e "") eqn:E1; [assumption|].
  destruct (String.eqb e ".") eqn:E2; [assumption|].
  destruct (String.eqb e "..") eqn:E3.
  - destruct Hb as [|top out Hg Hne Hb|out Hr Hall].
    + destruct r eqn:Er; [constructor|].
      apply buffer_dotdot; [reflexivity|constructor].
    + apply String.eqb_neq in Hne. rewrite Hne. assumption.
    + simpl. apply buffer_dotdot; [assumption|]. constructor; [reflexivity|assumption].
  - apply buffer_real; [|apply eqb_false_ne; assumption|assumption].
    repeat split; [assumption|apply eqb_false_ne; assumption..].
Qed.

Lemma fold_cleanStep_buffer (r : bool) (elems out : list string) :
  Forall (fun e => noSlash e = true) elems -> buffer r out ->
  buffer r (fold_left (cleanStep r) elems out).
Proof.
  intros Hall. revert out.
  induction Hall as [|e elems He _ IH]; simpl; intros out Hb; [assumption|].
  apply IH, cleanStep_buffer; assumption.
Qed.

(** Reading a buffer back element by element rebuilds it. *)
Lemma fold_cleanStep_rev (r : bool) (out : list string) :
  buffer r out -> fold_left (cleanStep r) (rev out) [] = out.
Proof.
  induction 1 as [|e out (Hs & Hne & Hnd) Hndd Hb IH|out Hr Hall]; simpl.
  - reflexivity.
  - rewrite fold_left_app, IH. simpl. unfold cleanStep.
    apply String.eqb_neq in Hne, Hnd, Hndd. rewrite Hne, Hnd, Hndd. reflexivity.
  - rewrite fold_left_app. simpl.
    assert (fold_left (cleanStep r) (rev out) [] = out) as ->.
    { induction Hall as [|e out -> Hall IH]; simpl; [reflexivity|].
      rewrite fold_left_app, IH. simpl. unfold cleanStep. simpl.
      destruct out as [|top out]; [rewrite Hr; reflexivity|].
      inversion Hall; subst. reflexivity. }
    unfold cleanStep. simpl.
    destruct out as [|top out]; [rewrite Hr; reflexivity|].
    inversion Hall; subst. reflexivity.
Qed.

Lemma joinSep_nonempty (l : list string) :
  l <> [] -> Forall (fun e => e <> "") l -> joinSep l <> "".
Proof.
  destruct l as [|e l]; [congruence|].
  intros _ Hall. inversion Hall as [|? ? He _]; subst.
  destruct l; simpl; [assumption|].
  destruct e; [congruence|discriminate].
Qed.

Lemma joinSep_rooted (l : list string) :
  Forall goodElem l -> rooted (joinSep l) = false.
Proof.
  destruct l as [|e l]; [reflexivity|].
  intros Hall. inversion Hall as [|? ? (Hs & Hne & _) _]; subst.
  assert (rooted e = false) as He.
  { destruct e as [|c e]; [reflexivity|]. simpl in *.
    destruct (Ascii.eqb c "/"); [discriminate|reflexivity]. }
  destruct l; simpl; [assumption|].
  destruct e; [congruence|exact He].
Qed.

Lemma render_nonempty (r : bool) (out : list string) :
  buffer r out -> render r out <> "".
Proof.
  intros Hb. unfold render. destruct r; [discriminate|].
  destruct out as [|e out]; [discriminate|].
  apply joinSep_nonempty.
  - intros H. apply (f_equal (@length string)) in H.
    rewrite length_rev in H. discriminate.
  - apply Forall_rev. eapply Forall_impl; [apply (buffer_good _ _ Hb)|].
    intros x (_ & Hx & _). exact Hx.
Qed.

Lemma render_rooted (r : bool) (out : list string) :
  buffer r out -> rooted (render r out) = r.
Proof.
  intros Hb. unfold render. destruct r; [reflexivity|].
  destruct out as [|e out]; [reflexivity|].
  apply joinSep_rooted, Forall_rev, (buffer_good _ _ Hb).
Qed.

(** Cleaning what [Clean] wrote gives the same buffer. *)
Lemma cleanElems_render (r : bool) (out : list string) :
  buffer r out -> cleanElems r (split (render r out)) = out.
Proof.
  intros Hb. unfold cleanElems, render.
  assert (Forall (fun e => noSlash e = true) (rev out)) as Hs.
  { apply Forall_rev. eapply Forall_impl; [apply (buffer_good _ _ Hb)|].
    intros x (Hx & _). exact Hx. }
  destruct out as [|e out].
  - destruct r; reflexivity.
  - assert (rev (e :: out) <> []) as Hne.
    { intros H. apply (f_equal (@length string)) in H.
      rewrite length_rev in H. discriminate. }
    destruct r.
    + change ("/" +:+ joinSep (rev (e :: out)))
        with ("" +:+ "/" +:+ joinSep (rev (e :: out))).
      rewrite split_app_slash, split_joinSep by assumption.
      simpl split. simpl fold_left at 1.
      change (fold_left (cleanStep true) (rev (e :: out)) (cleanStep true [] "")
              = e :: out).
      apply (fold_cleanStep_rev true). exact Hb.
    + rewrite split_joinSep by assumption.
      apply (fold_cleanStep_rev false). exact Hb.
Qed.

Lemma Clean_unfold (p : string) :
  p <> "" -> Clean p = render (rooted p) (cleanElems (rooted p) (split p)).
Proof. destruct p; [congruence|reflexivity]. Qed.

Lemma cleanElems_buffer (p : string) :
  buffer (rooted p) (cleanElems (rooted p) (split p)).
Proof. apply fold_cleanStep_buffer; [apply split_noSlash|constructor]. Qed.

(** Joining onto a cleaned path is joining onto the path. *)
Lemma Clean_Clean_app (p d : string) :
  p <> "" -> Clean (Clean p +:+ "/" +:+ d) = Clean (p +:+ "/" +:+ d).
Proof.
  intros Hp.
  assert (Clean p <> "") as Hc.
  { rewrite Clean_unfold by assumption. apply render_nonempty, cleanElems_buffer. }
  assert (forall q : string, q <> "" -> q +:+ "/" +:+ d <> "") as Hne.
  { intros [|c q]; [congruence|discriminate]. }
  rewrite (Clean_unfold (Clean p +:+ "/" +:+ d)) by (apply Hne, Hc).
  rewrite (Clean_unfold (p +:+ "/" +:+ d)) by (apply Hne, Hp).
  rewrite !rooted_app by assumption.
  rewrite !split_app_slash.
  pose proof (cleanElems_buffer p) as Hb.
  rewrite (Clean_unfold p Hp).
  set (out := cleanElems (rooted p) (split p)) in *.
  rewrite (render_rooted _ _ Hb).
  unfold cleanElems. rewrite !fold_left_app.
  fold (cleanElems (rooted p) (split (render (rooted p) out))).
  rewrite (cleanElems_render _ _ Hb).
  reflexivity.
Qed.

Lemma append_assoc (a b c : string) : (a +:+ b) +:+ c = a +:+ (b +:+ c).
Proof.
  induction a as [|x a IH]; [reflexivity|].
  change (String x ((a +:+ b) +:+ c) = String x (a +:+ (b +:+ c))).
  f_equal. exact IH.
Qed.

Lemma joinSep_snoc (l : list string) (d : string) :
  l <> [] -> joinSep (l ++ [d]) = joinSep l +:+ "/" +:+ d.
Proof.
  induction l as [|e l IH]; [congruence|]. intros _.
  destruct l as [|e' l]; [reflexivity|].
  change (joinSep ((e :: e' :: l) ++ [d]))
    with (e +:+ "/" +:+ joinSep ((e' :: l) ++ [d])).
  rewrite IH by congruence.
  change (joinSep (e :: e' :: l)) with (e +:+ "/" +:+ joinSep (e' :: l)).
  rewrite !append_assoc. reflexivity.
Qed.

Lemma dropEmpty_app (l k : list string) :
  dropEmpty (l ++ k)
  = match dropEmpty l with [] => dropEmpty k | es => es ++ k end.
Proof.
  induction l as [|e l IH]; simpl; [destruct (dropEmpty k); reflexivity|].
  destruct (String.eqb e ""); [exact IH|reflexivity].
Qed.

Lemma dropEmpty_head (l : list string) (e : string) (es : list string) :
  dropEmpty l = e :: es -> e <> "".
Proof.
  induction l as [|x l IH]; simpl; [discriminate|].
  destruct (String.eqb x "") eqn:E; [exact IH|].
  intros [= -> _]. apply String.eqb_neq, E.
Qed.

Lemma Clean_nonempty (p : string) : Clean p <> "".
Proof.
  destruct p as [|c p]; [discriminate|].
  rewrite Clean_unfold by discriminate. apply render_nonempty, cleanElems_buffer.
Qed.

(** [filepath.Join(filepath.Join(l...), d)] is [filepath.Join(l..., d)]. *)
Lemma Join_Join (l : list string) (d : string) :
  Join [Join l; d] = Join (l ++ [d]).
Proof.
  unfold Join at 1 3. rewrite dropEmpty_app. unfold Join.
  destruct (dropEmpty l) as [|e es] eqn:Hl.
  - reflexivity.
  - pose proof (dropEmpty_head _ _ _ Hl) as He.
    assert (joinSep (e :: es) <> "") as Hj.
    { destruct es; simpl; [assumption|]. destruct e; [congruence|discriminate]. }
    pose proof (Clean_nonempty (joinSep (e :: es))) as Hc.
    set (c := Clean (joinSep (e :: es))) in *.
    assert (dropEmpty [c; d] = [c; d]) as ->.
    { unfold dropEmpty. apply String.eqb_neq in Hc. rewrite Hc. reflexivity. }
    change (joinSep [c; d]) with (c +:+ "/" +:+ d).
    subst c. rewrite Clean_Clean_app by assumption.
    rewrite <- joinSep_snoc by discriminate.
    reflexivity.
Qed.

(** The two nested joins of [Run], flattened. *)
Lemma Join3_Join (a b c d : string) :
  Join [Join [a; b; c]; d] = Join [a; b; c; d].
Proof. apply (Join_Join [a; b; c] d). Qed.

End PathLemmas.

Example Clean_samples :
  map filepath.Clean ["a/b/../c"; "/../a//b/."; "../../x"; "a/.."; "/"; ""; "a/../../b"]
  = ["a/c"; "/a/b"; "../../x"; "."; "/"; "."; "../b"].
Proof. reflexivity. Qed.

Example Join_samples :
  map filepath.Join [["alpine"; "edge"; "main"]; [""; ""; "x"]; [""; ""]; ["a"; ""; "b"]; ["/"; "a"]; ["a"; "../.."]]
  = ["alpine/edge/main"; "x"; ""; "a/b"; "/a"; ".."].
Proof. reflexivity. Qed.

Example Base_Dir_samples :
  map filepath.Base ["/a/b"; "a/b/"; ""; "///"; "x"] = ["b"; "b"; "."; "/"; "x"]
  /\ map filepath.Dir ["/a/b"; "a/b/"; ""; "/x"; "x"; "keys/pub.rsa"]
     = ["/a"; "a/b"; "."; "/"; "."; "keys"].
Proof. split; reflexivity. Qed.

(** ** Running the monad *)

Lemma run_bind {A B} (m : M A) (k : A -> M B) (w : World) :
  bind m k w
  = match m w with
    | (Ok a, w') => k a w'
    | (Fail e, w') => (Fail e, w')
    end.
Proof. reflexivity. Qed.

Lemma run_try (os : Oracle) (c : Call) (w : World) :
  try os c w
  = (match err (os w c) with
     | Some msg => Fail (ErrExternal msg)
     | None => Ok (out (os w c))
     end, w ++ [Called c (os w c)]).
Proof. unfold try, bind, sys, check. destruct (err (os w c)); reflexivity. Qed.

Lemma bind_try {B} (os : Oracle) (c : Call) (k : string -> M B) (w : World) :
  bind (try os c) k w
  = match err (os w c) with
    | Some msg => (Fail (ErrExternal msg), w ++ [Called c (os w c)])
    | None => k (out (os w c)) (w ++ [Called c (os w c)])
    end.
Proof. rewrite run_bind, run_try. destruct (err (os w c)); reflexivity. Qed.

Lemma bind_sys {B} (os : Oracle) (c : Call) (k : Response -> M B) (w : World) :
  bind (sys os c) k w = k (os w c) (w ++ [Called c (os w c)]).
Proof. reflexivity. Qed.

Lemma bind_Add {B} (a : Artifact) (k : unit -> M B) (w : World) :
  bind (Add a) k w = k tt (w ++ [Added a]).
Proof. reflexivity. Qed.

Lemma bind_toolError {B} (r : Response) (k : unit -> M B) (w : World) :
  bind (alpine.toolError r) k w
  = match err r with
    | Some msg => (Fail (ErrMsg (msg +:+ ":" +:+ newline +:+ out r)), w)
    | None => k tt w
    end.
Proof. unfold alpine.toolError, bind. destruct (err r); reflexivity. Qed.

Lemma registered_app (w1 w2 : World) :
  registered (w1 ++ w2) = registered w1 ++ registered w2.
Proof. apply omap_app. Qed.

(** ** The chain of one architecture *)

(** The events a run has added to [w], read off the world it reached;
    the calls of the tools and the registrations at the end are left to
    the caller. *)
Ltac events_of W w :=
  lazymatch W with
  | w => constr:(@nil Event)
  | ?W' ++ [?e] => let l := events_of W' w in constr:(l ++ [e])
  end.

Ltac pre_of W w :=
  lazymatch W with
  | ?W' ++ [Called (CombinedOutput _ _ _ _) _] => pre_of W' w
  | ?W' ++ [Added _] => pre_of W' w
  | _ => events_of W w
  end.

Ltac stop_here w :=
  lazymatch goal with
  | |- exists pre, _ /\ ((exists msg, (_, ?W) = _) \/ _) =>
      let l := pre_of W w in
      exists l; split; [reflexivity|]
  end.

Section Chain.

Variable os : Oracle.
Variables (ctx : Context) (spec : config.Alpine).
Variables (pwd localPath localPathAbs repoPath pubKeyName : string).
Variable bin : Artifact.

Let apk := alpine.apkArtifact ctx spec localPath repoPath bin.
Let idx := alpine.apkIndexArtifact localPath repoPath bin.
Let build := buildCall localPath localPathAbs bin.
Let sign := signCall pwd localPath pubKeyName bin.
Let chain := alpine.packageArch os ctx spec pwd localPath localPathAbs repoPath pubKeyName bin.

(** What one chain does, case by case: it stops before the package is
    built; or the package is built and registered and signing fails; or
    both tools succeed and both artifacts are registered. *)
Lemma packageArch_cases (w : World) :
  exists (pre : list Event),
    forallb isFileCall pre = true /\
    ((exists msg, chain w = (Fail (ErrExternal msg), w ++ pre))
     \/ (exists rb msg,
           err rb = Some msg /\
           chain w = (Fail (ErrMsg (msg +:+ ":" +:+ newline +:+ out rb)),
                      w ++ pre ++ [Called build rb]))
     \/ (exists rb rs msg,
           err rb = None /\ err rs = Some msg /\
           chain w = (Fail (ErrMsg (msg +:+ ":" +:+ newline +:+ out rs)),
                      w ++ pre ++ [Called build rb; Added apk; Called sign rs]))
     \/ (exists rb rs,
           err rb = None /\ err rs = None /\
           chain w = (Ok tt,
                      w ++ pre ++ [Called build rb; Added apk; Called sign rs; Added idx]))).
Proof.
  unfold chain, alpine.packageArch.
  rewrite bind_try. destruct (os w _) as [o1 [m1|]]; cbn [err out].
  { stop_here w; left; eexists; reflexivity. }
  rewrite bind_try. destruct (os _ (Open _)) as [o2 [m2|]]; cbn [err out].
  { stop_here w; left; eexists; rewrite <- !app_assoc; reflexivity. }
  rewrite bind_try. destruct (os _ (Create _)) as [o3 [m3|]]; cbn [err out].
  { stop_here w; left; eexists; rewrite <- !app_assoc; reflexivity. }
  rewrite bind_sys. destruct (os _ (Chmod _ _)) as [o4 m4].
  rewrite bind_try. destruct (os _ (Copy _ _)) as [o5 [m5|]]; cbn [err out].
  { stop_here w; left; eexists; rewrite <- !app_assoc; reflexivity. }
  rewrite bind_sys, bind_toolError.
  destruct (os _ (CombinedOutput "abuild" _ _ _)) as [ob [mb|]]; cbn [err out].
  { stop_here w; right; left. exists {| out := ob; err := Some mb |}, mb.
    split; [reflexivity|]. rewrite <- !app_assoc. reflexivity. }
  rewrite bind_Add, bind_sys, bind_toolError.
  destruct (os _ (CombinedOutput "abuild-sign" _ _ _)) as [os' [ms|]]; cbn [err out].
  { stop_here w; right; right; left.
    exists {| out := ob; err := None |}, {| out := os'; err := Some ms |}, ms.
    split; [reflexivity|]. split; [reflexivity|].
    rewrite <- !app_assoc. reflexivity. }
  unfold Add. stop_here w; right; right; right.
  exists {| out := ob; err := None |}, {| out := os'; err := None |}.
  split; [reflexivity|]. split; [reflexivity|].
  rewrite <- !app_assoc. reflexivity.
Qed.

End Chain.

(** ** The task group *)

Lemma goEach_runAll {A} (fn : A -> M unit) (l : list A) (g : semerrgroup.Group) (w : World) :
  goEach g l fn w
  = (Ok {| semerrgroup.limit := semerrgroup.limit g;
           semerrgroup.failures :=
             semerrgroup.failures g ++ failuresOf (fst (runAll fn l w)) |},
     snd (runAll fn l w)).
Proof.
  revert g w. induction l as [|x l IH]; intros g w.
  - simpl. unfold ret. rewrite app_nil_r. destruct g; reflexivity.
  - simpl goEach. rewrite run_bind. unfold semerrgroup.Go. simpl runAll.
    destruct (fn x w) as [[[]|e] w1]; rewrite IH;
      destruct (runAll fn l w1) as [rs w2]; simpl; [reflexivity|].
    rewrite <- app_assoc. reflexivity.
Qed.

Lemma fanOut_runAll {A} (limit : Z) (fn : A -> M unit) (l : list A) (w : World) :
  fanOut limit l fn w
  = (combined (failuresOf (fst (runAll fn l w))), snd (runAll fn l w)).
Proof.
  unfold fanOut. rewrite run_bind, goEach_runAll. simpl.
  unfold semerrgroup.Wait. simpl.
  destruct (failuresOf (fst (runAll fn l w))); reflexivity.
Qed.

Lemma runAll_length {A} (fn : A -> M unit) (l : list A) (w : World) :
  length (fst (runAll fn l w)) = length l.
Proof.
  revert w. induction l as [|x l IH]; intros w; [reflexivity|].
  simpl. destruct (fn x w) as [r w1]. specialize (IH w1).
  destruct (runAll fn l w1) as [rs w2]. simpl in *. congruence.
Qed.

Lemma combined_not_skip (errs : list error) :
  match combined errs with
  | Fail e => pipe.IsSkip e = false
  | Ok _ => True
  end.
Proof. destruct errs; simpl; trivial. Qed.

(** ** The upload unit *)

Section Upload.

Variable os : Oracle.

Lemma uploadUnit_run (svc : S3Svc) (bucket folder : string) (conf : config.S3)
    (a : Artifact) (w : World) :
  let opened := os w (Open (Path a)) in
  let w1 := w ++ [Called (Open (Path a)) opened] in
  let put := PutObject svc {| PutBucket := bucket;
                              PutKey := filepath.Join [folder; RepoDir a; artifact.Name a];
                              PutBody := Path a;
                              PutACL := config.ACL conf |} in
  s3.uploadUnit os svc bucket folder conf a w
  = match err opened with
    | Some msg => (Fail (ErrExternal msg), w1)
    | None =>
        (match err (os w1 put) with
         | Some msg => Fail (ErrExternal msg)
         | None => Ok tt
         end, w1 ++ [Called put (os w1 put)])
    end.
Proof.
  intros opened w1 put. unfold s3.uploadUnit.
  rewrite bind_try. fold opened. destruct (err opened); [reflexivity|].
  fold w1. rewrite bind_try. fold put. destruct (err (os w1 put)); reflexivity.
Qed.

(** Every unit of the fan-out of [upload] opens its file, whatever the
    other units return. *)
Lemma runAll_uploadUnit (svc : S3Svc) (bucket folder : string) (conf : config.S3)
    (l : list Artifact) (w : World) :
  exists evs,
    snd (runAll (s3.uploadUnit os svc bucket folder conf) l w) = w ++ evs
    /\ omap openedPath evs = map Path l
    /\ registered evs = []
    /\ forall key, In key (omap uploadedKey evs) ->
         exists a, In a l /\ key = filepath.Join [folder; RepoDir a; artifact.Name a].
Proof.
  revert w. induction l as [|a l IH]; intros w.
  - exists []. simpl. rewrite app_nil_r. repeat split; try reflexivity.
    intros key [].
  - simpl runAll. pose proof (uploadUnit_run svc bucket folder conf a w) as Hu.
    cbv zeta in Hu.
    destruct (s3.uploadUnit os svc bucket folder conf a w) as [r w1].
    destruct (IH w1) as (evs & Hw & Ho & Hr & Hk).
    destruct (runAll (s3.uploadUnit os svc bucket folder conf) l w1) as [rs w2].
    simpl in Hw |- *.
    destruct (err (os w (Open (Path a)))).
    + injection Hu as _ ->. eexists. rewrite Hw, <- app_assoc.
      split; [reflexivity|]. rewrite !registered_app, !omap_app, Ho, Hr.
      repeat split; try reflexivity.
      intros key Hin. destruct (Hk key Hin) as (b & Hb & ->).
      exists b. split; [right; exact Hb|reflexivity].
    + injection Hu as _ ->. eexists. rewrite Hw, <- !app_assoc.
      split; [reflexivity|]. rewrite !registered_app, !omap_app, Ho, Hr.
      repeat split; try reflexivity.
      intros key [<-|Hin].
      * exists a. split; [left; reflexivity|reflexivity].
      * destruct (Hk key Hin) as (b & Hb & ->).
        exists b. split; [right; exact Hb|reflexivity].
Qed.

End Upload.

(** ** The publish pipe *)

Lemma artifactTypes_vocabulary (name : string) :
  s3.artifactTypes !! name = None <-> inVocabulary name = false.
Proof.
  unfold inVocabulary, vocabulary, s3.artifactTypes. simpl existsb.
  repeat match goal with
  | |- context [String.eqb name ?k] =>
      destruct (String.eqb_spec name k) as [->|?]; [split; discriminate|]
  end.
  simpl. rewrite !lookup_insert_ne by congruence.
  rewrite lookup_empty. split; reflexivity.
Qed.

Lemma typeFilters_unknown (names : list string) (filters : list artifact.Filter) (name : string) :
  firstUnknown names = Some name ->
  s3.typeFilters filters names = Fail (ErrMsg ("unknown artifact type: " +:+ name)).
Proof.
  revert filters. induction names as [|n names IH]; intros filters; [discriminate|].
  unfold firstUnknown. simpl.
  destruct (inVocabulary n) eqn:Hn; simpl.
  - destruct (s3.artifactTypes !! n) eqn:Hl.
    + intros H. apply IH, H.
    + apply artifactTypes_vocabulary in Hl. congruence.
  - intros [= ->]. apply artifactTypes_vocabulary in Hn. rewrite Hn. reflexivity.
Qed.

Lemma typeFilters_known (names : list string) (filters : list artifact.Filter) :
  firstUnknown names = None ->
  exists more, s3.typeFilters filters names = Ok (filters ++ more).
Proof.
  revert filters. induction names as [|n names IH]; intros filters.
  - exists []. simpl. rewrite app_nil_r. reflexivity.
  - unfold firstUnknown. simpl.
    destruct (inVocabulary n) eqn:Hn; simpl; [|discriminate].
    intros H. destruct (s3.artifactTypes !! n) eqn:Hl.
    + destruct (IH (filters ++ [artifact.ByType t]) H) as (more & ->).
      rewrite <- app_assoc. eauto.
    + apply artifactTypes_vocabulary in Hl. congruence.
Qed.

Lemma firstUnknown_some (names : list string) (name : string) :
  In name names -> ~ In name vocabulary -> exists n, firstUnknown names = Some n.
Proof.
  intros Hin Hout. unfold firstUnknown.
  destruct (List.find _ names) as [n|] eqn:Hf; [eauto|].
  exfalso. apply (find_none _ _ Hf) in Hin.
  apply negb_false_iff, existsb_exists in Hin as (k & Hk & Heq).
  apply String.eqb_eq in Heq. subst k. exact (Hout Hk).
Qed.

Lemma firstUnknown_spec (names : list string) (n : string) :
  firstUnknown names = Some n -> In n names /\ ~ In n vocabulary.
Proof.
  intros H. apply find_some in H as [Hin Hv]. split; [assumption|].
  intros Hk. apply negb_true_iff in Hv.
  assert (inVocabulary n = true) as Ht; [|congruence].
  apply existsb_exists. exists n. split; [assumption|apply String.eqb_refl].
Qed.

Section Publish.

Variable os : Oracle.

(** [upload], call by call. *)
Lemma upload_run (ctx : Context) (conf : config.S3) (w : World) :
  let tb := TmplApply ctx (config.Bucket conf) in
  let w1 := w ++ [Called tb (os w tb)] in
  let tf := TmplApply ctx (config.Folder conf) in
  let w2 := w1 ++ [Called tf (os w1 tf)] in
  s3.upload os ctx conf w
  = match err (os w tb) with
    | Some msg => (Fail (ErrExternal msg), w1)
    | None =>
        match err (os w1 tf) with
        | Some msg => (Fail (ErrExternal msg), w2)
        | None =>
            match s3.typeFilters [] (config.Artifacts conf) with
            | Fail e => (Fail e, w2)
            | Ok filters =>
                fanOut (Parallelism ctx)
                  (List.filter (artifact.Or filters) (registered w2))
                  (s3.uploadUnit os (s3.newS3Svc conf) (out (os w tb)) (out (os w1 tf)) conf)
                  w2
            end
        end
    end.
Proof.
  intros tb w1 tf w2. unfold s3.upload.
  rewrite bind_try. fold tb. destruct (err (os w tb)); [reflexivity|].
  fold w1. rewrite bind_try. fold tf. destruct (err (os w1 tf)); [reflexivity|].
  fold w2. destruct (s3.typeFilters [] (config.Artifacts conf)); reflexivity.
Qed.

End Publish.

Section PublishClaims.

Variable os : Oracle.

Lemma Publish_run (ctx : Context) (w : World) :
  s3.Publish os ctx w
  = match config.S3s (Config ctx) with
    | [] => (Fail (pipe.Skip "s3 section is not configured"), w)
    | confs =>
        let check := CheckPipe ctx "s3" in
        let w1 := w ++ [Called check (os w check)] in
        match err (os w check) with
        | Some msg => (Fail (ErrExternal msg), w1)
        | None => fanOut (Parallelism ctx) confs (s3.upload os ctx) w1
        end
    end.
Proof.
  unfold s3.Publish. destruct (config.S3s (Config ctx)) as [|c cs]; [reflexivity|].
  rewrite bind_try. cbv zeta. destruct (err (os w (CheckPipe ctx "s3"))); reflexivity.
Qed.

End PublishClaims.

(** C1.  A task group fan-out runs every scheduled unit whatever the others
    return, and [Wait] returns nil when no unit failed and otherwise one
    error holding the failure of every failed unit, not only the first.
    In [upload], whose templates resolve and whose kinds are known, the
    result is the combination of the failures of the units of all the
    matching artifacts, and the file of every matching artifact is
    opened. *)
Theorem wait_combines_every_failure (os : Oracle) (ctx : Context) (conf : config.S3)
    (w : World) :
  (forall (A : Type) (limit : Z) (fn : A -> M unit) (l : list A) (w0 : World),
      let outcomes := fst (runAll fn l w0) in
      fanOut limit l fn w0 = (combined (failuresOf outcomes), snd (runAll fn l w0))
      /\ length outcomes = length l
      /\ (failuresOf outcomes = [] -> combined (failuresOf outcomes) = Ok tt)
      /\ (failuresOf outcomes <> [] ->
          combined (failuresOf outcomes) = Fail (ErrGroup (failuresOf outcomes))))
  /\ (forall filters : list artifact.Filter,
        let tb := TmplApply ctx (config.Bucket conf) in
        let w1 := w ++ [Called tb (os w tb)] in
        let tf := TmplApply ctx (config.Folder conf) in
        let w2 := w1 ++ [Called tf (os w1 tf)] in
        let matching := List.filter (artifact.Or filters) (registered w2) in
        let unit :=
          s3.uploadUnit os (s3.newS3Svc conf) (out (os w tb)) (out (os w1 tf)) conf in
        err (os w tb) = None -> err (os w1 tf) = None ->
        s3.typeFilters [] (config.Artifacts conf) = Ok filters ->
        s3.upload os ctx conf w
        = (combined (failuresOf (fst (runAll unit matching w2))),
           snd (runAll unit matching w2))
        /\ exists evs,
             snd (s3.upload os ctx conf w) = w2 ++ evs
             /\ omap openedPath evs = map Path matching).
Proof.
  split.
  - intros A limit fn l w0 outcomes. split; [apply fanOut_runAll|].
    split; [apply runAll_length|].
    split; [intros ->; reflexivity|].
    destruct (failuresOf outcomes); [congruence|reflexivity].
  - intros filters tb w1 tf w2 matching unit Hb Hf Ht.
    pose proof (upload_run os ctx conf w) as Hrun. cbv zeta in Hrun.
    fold tb w1 tf w2 in Hrun. rewrite Hb, Hf, Ht in Hrun.
    fold matching unit in Hrun. rewrite fanOut_runAll in Hrun.
    split; [exact Hrun|]. rewrite Hrun. simpl.
    destruct (runAll_uploadUnit os (s3.newS3Svc conf) (out (os w tb)) (out (os w1 tf))
                conf matching w2) as (evs & Hw & Ho & _).
    exists evs. split; assumption.
Qed.

(** The scenario of the spec: five units, the second and the fourth fail. *)
Lemma five_units_two_fail :
  let os := failingOn (opens ["dist/f2"; "dist/f4"]) "no such file" in
  let ctx := sampleCtx [] [sampleS3 ["binary"]] in
  let w := map (fun n => Added (sampleArtifact UploadableBinary n))
             ["f1"; "f2"; "f3"; "f4"; "f5"] in
  fst (s3.upload os ctx (sampleS3 ["binary"]) w)
  = Fail (ErrGroup [ErrExternal "no such file"; ErrExternal "no such file"])
  /\ omap openedPath (snd (s3.upload os ctx (sampleS3 ["binary"]) w))
     = ["dist/f1"; "dist/f2"; "dist/f3"; "dist/f4"; "dist/f5"]
  /\ omap uploadedKey (snd (s3.upload os ctx (sampleS3 ["binary"]) w))
     = ["releases/1.2.3/f1"; "releases/1.2.3/f3"; "releases/1.2.3/f5"].
Proof.
  intros os ctx w.
  destruct (wait_combines_every_failure os ctx (sampleS3 ["binary"]) w) as [_ H].
  destruct (H [artifact.ByType UploadableBinary] eq_refl eq_refl eq_refl) as [Hrun _].
  rewrite Hrun. vm_compute. repeat split.
Defined.

(** C7.  [upload] builds its type filter from the configured names with
    the vocabulary archive, binary, nfpm, checksum, signature, apk,
    apkindex.  When a configured name is outside the vocabulary, [upload]
    returns an error and performs no upload: its only calls are the
    resolutions of the bucket and folder templates, which come first.
    With the templates resolved the error is "unknown artifact type: "
    followed by the first such name; a template that does not resolve
    ends [upload] with its own error before the names are looked at. *)
Theorem unknown_kind_stops_upload (os : Oracle) (ctx : Context) (conf : config.S3)
    (w : World) (name : string) :
  In name (config.Artifacts conf) -> ~ In name vocabulary ->
  let tb := TmplApply ctx (config.Bucket conf) in
  let w1 := w ++ [Called tb (os w tb)] in
  let tf := TmplApply ctx (config.Folder conf) in
  exists e evs first,
    s3.upload os ctx conf w = (Fail e, w ++ evs)
    /\ forallb isTmplApply evs = true
    /\ firstUnknown (config.Artifacts conf) = Some first
    /\ In first (config.Artifacts conf) /\ ~ In first vocabulary
    /\ (err (os w tb) = None -> err (os w1 tf) = None ->
        e = ErrMsg ("unknown artifact type: " +:+ first))
    /\ (forall msg, err (os w tb) = Some msg -> e = ErrExternal msg)
    /\ (forall msg, err (os w tb) = None -> err (os w1 tf) = Some msg ->
        e = ErrExternal msg).
Proof.
  intros Hin Hout tb w1 tf.
  destruct (firstUnknown_some _ _ Hin Hout) as (first & Hfirst).
  destruct (firstUnknown_spec _ _ Hfirst) as (Hfin & Hfout).
  pose proof (upload_run os ctx conf w) as Hrun. cbv zeta in Hrun.
  fold tb w1 tf in Hrun.
  rewrite (typeFilters_unknown _ [] _ Hfirst) in Hrun.
  destruct (err (os w tb)) as [mb|] eqn:Hb.
  - exists (ErrExternal mb), [Called tb (os w tb)], first.
    repeat split; try assumption; try discriminate.
    intros msg [= ->]. reflexivity.
  - destruct (err (os w1 tf)) as [mf|] eqn:Hf.
    + exists (ErrExternal mf), [Called tb (os w tb); Called tf (os w1 tf)], first.
      rewrite Hrun. unfold w1. rewrite <- app_assoc.
      repeat split; try assumption; try discriminate.
      intros msg _ [= ->]. reflexivity.
    + exists (ErrMsg ("unknown artifact type: " +:+ first)),
        [Called tb (os w tb); Called tf (os w1 tf)], first.
      rewrite Hrun. unfold w1. rewrite <- app_assoc.
      repeat split; try assumption; try discriminate.
Qed.

Lemma unknown_kind_stops_upload_witness :
  exists e evs first,
    s3.upload allSucceed (sampleCtx [] [sampleS3 ["binary"; "deb"]])
      (sampleS3 ["binary"; "deb"]) [] = (Fail e, [] ++ evs)
    /\ forallb isTmplApply evs = true
    /\ firstUnknown ["binary"; "deb"] = Some first
    /\ e = ErrMsg ("unknown artifact type: " +:+ first).
Proof.
  destruct (unknown_kind_stops_upload allSucceed
              (sampleCtx [] [sampleS3 ["binary"; "deb"]])
              (sampleS3 ["binary"; "deb"]) [] "deb")
    as (e & evs & first & Hrun & Hev & Hfirst & _ & _ & He & _).
  - simpl. tauto.
  - unfold vocabulary. simpl. intros H. decompose [or] H; discriminate || assumption.
  - exists e, evs, first. repeat split; try assumption.
    apply He; reflexivity.
Defined.

(** The order of the checks of [upload]: with the name "deb" configured
    and a bucket template that does not resolve, the error returned is
    that of the template. *)
Lemma unknown_kind_behind_template_error :
  s3.upload (failingOn isTemplate "template: unexpected token")
    (sampleCtx [] [sampleS3 ["deb"]]) (sampleS3 ["deb"]) []
  = (Fail (ErrExternal "template: unexpected token"),
     [Called (TmplApply (sampleCtx [] [sampleS3 ["deb"]]) "downloads")
        {| out := ""; err := Some "template: unexpected token" |}])
  /\ ErrExternal "template: unexpected token" <> ErrMsg "unknown artifact type: deb".
Proof. split; [reflexivity|discriminate]. Qed.

(** C8.  In [upload], whose templates resolve and whose kinds are known,
    every object key handed to the store is
    [filepath.Join(folder, artifact.RepoDir, artifact.Name)] for a matching
    artifact, [folder] being the resolved folder template, and the unit of
    an artifact whose file opens makes exactly that call.  With the folder
    resolved to "releases/1.2.3", an artifact named "app_linux_amd64" with
    an empty [RepoDir] is uploaded under "releases/1.2.3/app_linux_amd64". *)
Theorem upload_key (os : Oracle) (ctx : Context) (conf : config.S3) (w : World)
    (filters : list artifact.Filter) :
  let tb := TmplApply ctx (config.Bucket conf) in
  let w1 := w ++ [Called tb (os w tb)] in
  let tf := TmplApply ctx (config.Folder conf) in
  let w2 := w1 ++ [Called tf (os w1 tf)] in
  let folder := out (os w1 tf) in
  let matching := List.filter (artifact.Or filters) (registered w2) in
  let unit := s3.uploadUnit os (s3.newS3Svc conf) (out (os w tb)) folder conf in
  let keyOf := fun a : Artifact => filepath.Join [folder; RepoDir a; artifact.Name a] in
  err (os w tb) = None -> err (os w1 tf) = None ->
  s3.typeFilters [] (config.Artifacts conf) = Ok filters ->
  (exists evs,
      snd (s3.upload os ctx conf w) = w2 ++ evs
      /\ forall key, In key (omap uploadedKey evs) ->
           exists a, In a matching /\ key = keyOf a)
  /\ (forall (a : Artifact) (w' : World),
        err (os w' (Open (Path a))) = None ->
        exists r,
          snd (unit a w')
          = w' ++ [Called (Open (Path a)) (os w' (Open (Path a)));
                   Called (PutObject (s3.newS3Svc conf)
                             {| PutBucket := out (os w tb);
                                PutKey := keyOf a;
                                PutBody := Path a;
                                PutACL := config.ACL conf |}) r])
  /\ (forall a : Artifact,
        folder = "releases/1.2.3" -> artifact.Name a = "app_linux_amd64" ->
        RepoDir a = "" -> keyOf a = "releases/1.2.3/app_linux_amd64").
Proof.
  intros tb w1 tf w2 folder matching unit keyOf Hb Hf Ht.
  split; [|split].
  - pose proof (upload_run os ctx conf w) as Hrun. cbv zeta in Hrun.
    fold tb w1 tf w2 in Hrun. rewrite Hb, Hf, Ht in Hrun.
    fold folder matching unit in Hrun. rewrite fanOut_runAll in Hrun.
    rewrite Hrun. simpl.
    destruct (runAll_uploadUnit os (s3.newS3Svc conf) (out (os w tb)) folder
                conf matching w2) as (evs & Hw & _ & _ & Hk).
    exists evs. split; [exact Hw|exact Hk].
  - intros a w' Ho. unfold unit. rewrite uploadUnit_run. cbv zeta. rewrite Ho.
    eexists. rewrite <- app_assoc. reflexivity.
  - intros a Hfolder Hn Hr. unfold keyOf. rewrite Hfolder, Hn, Hr. reflexivity.
Qed.

Lemma upload_key_witness :
  omap uploadedKey
    (snd (s3.upload allSucceed (sampleCtx [] [sampleS3 ["binary"]])
            (sampleS3 ["binary"])
            [Added (sampleArtifact UploadableBinary "app_linux_amd64")]))
  = ["releases/1.2.3/app_linux_amd64"]
  /\ filepath.Join ["releases/1.2.3"; ""; "app_linux_amd64"]
     = "releases/1.2.3/app_linux_amd64".
Proof.
  destruct (upload_key allSucceed (sampleCtx [] [sampleS3 ["binary"]])
              (sampleS3 ["binary"])
              [Added (sampleArtifact UploadableBinary "app_linux_amd64")]
              [artifact.ByType UploadableBinary] eq_refl eq_refl eq_refl)
    as (_ & _ & Hkey).
  split; [vm_compute; reflexivity|].
  apply (Hkey (sampleArtifact UploadableBinary "app_linux_amd64")); reflexivity.
Defined.

(** ** The packaging pipe *)

Lemma registered_fileCalls (evs : list Event) :
  forallb isFileCall evs = true -> registered evs = [].
Proof.
  induction evs as [|e evs IH]; [reflexivity|]. simpl.
  intros H. apply andb_prop in H as [He Hevs].
  destruct e as [c r|a]; [|discriminate]. exact (IH Hevs).
Qed.

Lemma registered_setupCalls (evs : list Event) :
  forallb isSetupCall evs = true -> registered evs = [].
Proof.
  induction evs as [|e evs IH]; [reflexivity|]. simpl.
  intros H. apply andb_prop in H as [He Hevs].
  destruct e as [c r|a]; [|discriminate]. exact (IH Hevs).
Qed.

Lemma forEach_cons {A} (body : A -> M unit) (x : A) (l : list A) (w : World) :
  forEach (x :: l) body w
  = match body x w with
    | (Ok _, w') => forEach l body w'
    | (Fail e, w') => (Fail e, w')
    end.
Proof. reflexivity. Qed.

(** The artifacts registered by a loop are registered by one of its
    iterations. *)
Lemma forEach_added {A} (body : A -> M unit) (R : World -> A -> Artifact -> Prop) :
  (forall w evs x a, R w x a -> R (w ++ evs) x a) ->
  (forall x w, exists evs,
      snd (body x w) = w ++ evs
      /\ forall a, In a (registered evs) -> R (w ++ evs) x a) ->
  forall l w, exists evs,
    snd (forEach l body w) = w ++ evs
    /\ forall a, In a (registered evs) -> exists x, In x l /\ R (w ++ evs) x a.
Proof.
  intros Hmono Hbody l. induction l as [|x l IH]; intros w.
  - exists []. simpl. rewrite app_nil_r. split; [reflexivity|]. intros a [].
  - rewrite forEach_cons. destruct (Hbody x w) as (evs1 & Hw1 & Ha1).
    destruct (body x w) as [[[]|e] w1]; simpl in Hw1; subst w1.
    + destruct (IH (w ++ evs1)) as (evs2 & Hw2 & Ha2).
      exists (evs1 ++ evs2). rewrite Hw2, app_assoc. split; [reflexivity|].
      intros a Hin. rewrite registered_app in Hin. apply in_app_or in Hin as [Hin|Hin].
      * exists x. split; [left; reflexivity|]. apply Hmono, Ha1, Hin.
      * destruct (Ha2 a Hin) as (y & Hy & HR). exists y. split; [right; exact Hy|exact HR].
    + exists evs1. split; [reflexivity|]. intros a Hin.
      exists x. split; [left; reflexivity|]. apply Ha1, Hin.
Qed.

(** The error of a loop is the error of one of its iterations. *)
Lemma forEach_fail {A} (body : A -> M unit) (P : error -> Prop) :
  (forall x w e, fst (body x w) = Fail e -> P e) ->
  forall l w e, fst (forEach l body w) = Fail e -> P e.
Proof.
  intros Hbody l. induction l as [|x l IH]; intros w e; [discriminate|].
  rewrite forEach_cons. specialize (Hbody x w).
  destruct (body x w) as [[[]|e'] w1]; simpl in *.
  - apply IH.
  - intros [= <-]. apply Hbody. reflexivity.
Qed.

Section Packaging.

Variable pubKeyPath : string.
Variable os : Oracle.
Variable ctx : Context.

Lemma packageArch_added (spec : config.Alpine)
    (pwd localPath localPathAbs repoPath pubKeyName : string) (bin : Artifact) (w : World) :
  exists evs,
    snd (alpine.packageArch os ctx spec pwd localPath localPathAbs repoPath pubKeyName
           bin w) = w ++ evs
    /\ forall a, In a (registered evs) ->
         a = alpine.apkArtifact ctx spec localPath repoPath bin
         \/ a = alpine.apkIndexArtifact localPath repoPath bin.
Proof.
  destruct (packageArch_cases os ctx spec pwd localPath localPathAbs repoPath
              pubKeyName bin w) as (pre & Hpre & Hcases).
  apply registered_fileCalls in Hpre.
  destruct Hcases as [(msg & ->)|[(rb & msg & _ & ->)|[(rb & rs & msg & _ & _ & ->)
                     |(rb & rs & _ & _ & ->)]]];
    simpl; eexists; (split; [reflexivity|]);
    rewrite ?registered_app, Hpre; simpl; intros a Hin;
    decompose [or] Hin; subst; tauto.
Qed.

Lemma packageArch_fail (spec : config.Alpine)
    (pwd localPath localPathAbs repoPath pubKeyName : string) (bin : Artifact)
    (w : World) (e : error) :
  fst (alpine.packageArch os ctx spec pwd localPath localPathAbs repoPath pubKeyName
         bin w) = Fail e ->
  plainError e.
Proof.
  destruct (packageArch_cases os ctx spec pwd localPath localPathAbs repoPath
              pubKeyName bin w) as (pre & _ & Hcases).
  destruct Hcases as [(msg & ->)|[(rb & msg & _ & ->)|[(rb & rs & msg & _ & _ & ->)
                     |(rb & rs & _ & _ & ->)]]];
    simpl; intros [= <-]; unfold plainError; eauto.
Qed.

(** The body of the outer loop, call by call: it stops in the set-up, or
    runs the chain of every eligible binary. *)
Lemma packageSpec_cases (spec : config.Alpine) (w : World) :
  let bins := List.filter alpine.binaryFilter (registered w) in
  exists pre,
    forallb isSetupCall pre = true
    /\ ((exists msg,
           alpine.packageSpec pubKeyPath os ctx spec w
           = (Fail (ErrExternal msg), w ++ pre))
        \/ (exists pwd,
              alpine.packageSpec pubKeyPath os ctx spec w
              = forEach bins
                  (alpine.packageArch os ctx spec pwd (localPathOf ctx spec)
                     (filepath.Join [pwd; localPathOf ctx spec]) (repoPathOf spec)
                     (filepath.Dir pubKeyPath))
                  (w ++ pre))).
Proof.
  intros bins. unfold alpine.packageSpec.
  rewrite run_bind. unfold FilterList. fold bins.
  rewrite bind_try. destruct (os w Getwd) as [pwd [m1|]]; cbn [err out].
  { stop_here w; left; eexists; reflexivity. }
  rewrite bind_try. destruct (os _ (MkdirAll _ _)) as [o2 [m2|]]; cbn [err out].
  { stop_here w; left; eexists; rewrite <- !app_assoc; reflexivity. }
  unfold alpine.generateApkBuildFile, alpine.buildApkBuildFile.
  rewrite run_bind, bind_try. cbn [Info].
  destruct (os _ (TemplateParse _)) as [o3 [m3|]]; cbn [err out].
  { stop_here w; left; eexists; rewrite <- !app_assoc; reflexivity. }
  rewrite run_try.
  destruct (os _ (TemplateExecute _)) as [o4 [m4|]]; cbn [err out].
  { stop_here w; left; eexists; rewrite <- !app_assoc; reflexivity. }
  rewrite bind_sys. destruct (os _ (WriteFile _ _ _)) as [o5 m5].
  rewrite bind_try. destruct (os _ (LookPath _)) as [o6 [m6|]]; cbn [err out].
  { stop_here w; left; eexists; rewrite <- !app_assoc; reflexivity. }
  lazymatch goal with
  | |- exists pre, _ /\ (_ \/ (exists p, forEach _ _ ?W = _)) =>
      let l := events_of W w in
      exists l; split; [reflexivity|]
  end.
  right. exists pwd. rewrite <- !app_assoc. reflexivity.
Qed.

End Packaging.

(** C3.  The architecture translation of [Run] is the fixed table: "386"
    gives "x86", "amd64" gives "x86_64", and every other name is returned
    unchanged. *)
Theorem alpineArch_table :
  alpine.alpineArch "386" = "x86"
  /\ alpine.alpineArch "amd64" = "x86_64"
  /\ forall goarch : string,
       goarch <> "386" -> goarch <> "amd64" -> alpine.alpineArch goarch = goarch.
Proof.
  split; [reflexivity|]. split; [reflexivity|].
  intros goarch H386 Hamd. unfold alpine.alpineArch.
  apply String.eqb_neq in H386, Hamd. rewrite H386, Hamd. reflexivity.
Qed.

Lemma alpineArch_table_witness : alpine.alpineArch "arm64" = "arm64".
Proof. apply (proj2 (proj2 alpineArch_table)); discriminate. Defined.

Lemma binaryFilter_spec (a : Artifact) :
  alpine.binaryFilter a = true
  <-> Type' a = Binary /\ Goos a = "linux" /\ Goarm a = "".
Proof.
  unfold alpine.binaryFilter, artifact.And, artifact.ByGoos, artifact.ByGoarm,
    artifact.ByType.
  simpl. rewrite !andb_true_iff, !String.eqb_eq, bool_decide_eq_true. tauto.
Qed.

(** C5 as stated fails: a registered uploadable binary for linux without
    ARM variant is not selected, and with only that artifact registered
    the pipe starts no chain, while a plain binary is selected. *)
Lemma uploadable_binary_not_selected :
  let up := sampleArtifact UploadableBinary "app_linux_amd64" in
  let bin := sampleArtifact Binary "app" in
  (Type' up = UploadableBinary /\ Goos up = "linux" /\ Goarm up = "")
  /\ FilterList alpine.binaryFilter [Added up; Added bin]
     = (Ok [bin], [Added up; Added bin])
  /\ List.filter isFileCall
       (snd (alpine.Run "keys/abuild.rsa.pub" allSucceed (sampleCtx [sampleSpec] [])
               [Added up])) = [].
Proof. repeat split. Qed.

Lemma defaultAlpines_missing_keys (pub priv : string) (a : config.Alpine)
    (rest : list config.Alpine) :
  pub = "" \/ priv = "" ->
  alpine.defaultAlpines pub priv (a :: rest)
  = (alpine.setDefaults a :: rest, Some alpine.ErrNoAlpineKeys).
Proof.
  intros Hkeys. simpl.
  assert (String.eqb pub "" || String.eqb priv "" = true) as ->; [|reflexivity].
  apply orb_true_iff. rewrite !String.eqb_eq. exact Hkeys.
Qed.

(** C6 (amended).  The key paths are checked by [Default], not by [Run].
    When the public or the private key path is empty and a package spec is
    configured, [Default] returns [ErrNoAlpineKeys] at the first spec,
    whose defaults are set, and leaves the other specs as they were;
    [Default] makes no call, so nothing is spawned by it.  With no package
    spec configured [Default] returns nil although a key is missing, and
    [Run] returns the skip signal without a call.  [Run] has no check of
    its own: that no tool is spawned with a key missing rests on the
    caller stopping at the error of [Default]. *)
Theorem missing_keys_are_fatal (pubKeyPath privKeyPath : string) (ctx : Context) :
  pubKeyPath = "" \/ privKeyPath = "" ->
  (forall a rest,
      config.Alpines (Config ctx) = a :: rest ->
      snd (alpine.Default pubKeyPath privKeyPath ctx) = Some alpine.ErrNoAlpineKeys
      /\ config.Alpines (Config (fst (alpine.Default pubKeyPath privKeyPath ctx)))
         = alpine.setDefaults a :: rest)
  /\ (config.Alpines (Config ctx) = [] ->
      snd (alpine.Default pubKeyPath privKeyPath ctx) = None
      /\ config.Alpines (Config (fst (alpine.Default pubKeyPath privKeyPath ctx))) = []
      /\ forall (os : Oracle) (w : World),
           alpine.Run pubKeyPath os (fst (alpine.Default pubKeyPath privKeyPath ctx)) w
           = (Fail (pipe.Skip "alpine section is not configured"), w))
  /\ (snd (alpine.Default pubKeyPath privKeyPath ctx) = None
      <-> config.Alpines (Config ctx) = []).
Proof.
  intros Hkeys. split; [|split].
  - intros a rest Hcfg. unfold alpine.Default. rewrite Hcfg.
    rewrite (defaultAlpines_missing_keys _ _ _ _ Hkeys). split; reflexivity.
  - intros Hcfg. unfold alpine.Default. rewrite Hcfg. simpl.
    split; [reflexivity|]. split; reflexivity.
  - unfold alpine.Default.
    destruct (config.Alpines (Config ctx)) as [|a rest] eqn:Hcfg.
    + simpl. split; reflexivity.
    + rewrite (defaultAlpines_missing_keys _ _ _ _ Hkeys). simpl.
      split; discriminate.
Qed.

Lemma missing_keys_are_fatal_witness :
  snd (alpine.Default "" "keys/abuild.rsa" (sampleCtx [sampleSpec] []))
  = Some alpine.ErrNoAlpineKeys.
Proof.
  apply (proj1 (missing_keys_are_fatal "" "keys/abuild.rsa" (sampleCtx [sampleSpec] [])
                  (or_introl eq_refl)) sampleSpec []).
  reflexivity.
Defined.

(** C6 as stated fails: [Run] with an empty public key path, a configured
    spec and an eligible binary spawns both tools and returns nil; the
    signing tool is handed the directory of the empty path. *)
Lemma Run_without_keys_spawns_tools :
  let run := alpine.Run "" allSucceed (sampleCtx [sampleSpec] [])
               [Added (sampleArtifact Binary "app")] in
  fst run = Ok tt
  /\ length (List.filter isSubprocess (snd run)) = 2%nat
  /\ existsb
       (fun e =>
          match e with
          | Called (CombinedOutput "abuild-sign" [_; "-p"; "."] _ _) _ => true
          | _ => false
          end) (snd run) = true.
Proof. vm_compute. repeat split. Qed.

(** C4 (amended).  In the chain of one architecture the built package is
    registered as soon as the build tool has succeeded, before the signing
    tool is called, and the signed index is registered only after the
    signing tool has succeeded.  The chain ends in one of three ways: it
    stops before the build has succeeded and registers nothing; or the
    build succeeds, the package is registered, signing fails and the index
    is not registered; or both tools succeed and the package and the index
    are registered, in this order. *)
Theorem chain_registrations (os : Oracle) (ctx : Context) (spec : config.Alpine)
    (pwd localPath localPathAbs repoPath pubKeyName : string) (bin : Artifact)
    (w : World) :
  let apk := alpine.apkArtifact ctx spec localPath repoPath bin in
  let idx := alpine.apkIndexArtifact localPath repoPath bin in
  let build := buildCall localPath localPathAbs bin in
  let sign := signCall pwd localPath pubKeyName bin in
  let chain :=
    alpine.packageArch os ctx spec pwd localPath localPathAbs repoPath pubKeyName bin in
  exists pre : list Event,
    forallb isFileCall pre = true
    /\ ((exists e evs,
           chain w = (Fail e, w ++ evs)
           /\ registered evs = []
           /\ (evs = pre
               \/ exists rb, err rb <> None /\ evs = pre ++ [Called build rb]))
        \/ (exists rb rs msg evs,
              err rb = None /\ err rs = Some msg
              /\ evs = pre ++ [Called build rb; Added apk; Called sign rs]
              /\ chain w = (Fail (ErrMsg (msg +:+ ":" +:+ newline +:+ out rs)), w ++ evs)
              /\ registered evs = [apk])
        \/ (exists rb rs evs,
              err rb = None /\ err rs = None
              /\ evs = pre ++ [Called build rb; Added apk; Called sign rs; Added idx]
              /\ chain w = (Ok tt, w ++ evs)
              /\ registered evs = [apk; idx])).
Proof.
  intros apk idx build sign chain.
  destruct (packageArch_cases os ctx spec pwd localPath localPathAbs repoPath
              pubKeyName bin w) as (pre & Hpre & Hcases).
  exists pre. split; [exact Hpre|].
  apply registered_fileCalls in Hpre.
  destruct Hcases as [(msg & Hrun)|[(rb & msg & Hb & Hrun)
                     |[(rb & rs & msg & Hb & Hs & Hrun)|(rb & rs & Hb & Hs & Hrun)]]].
  - left. exists (ErrExternal msg), pre. repeat split; [exact Hrun|exact Hpre|].
    left. reflexivity.
  - left. exists (ErrMsg (msg +:+ ":" +:+ newline +:+ out rb)), (pre ++ [Called build rb]).
    split; [exact Hrun|]. split.
    + rewrite registered_app, Hpre. reflexivity.
    + right. exists rb. split; [congruence|reflexivity].
  - right. left. exists rb, rs, msg, (pre ++ [Called build rb; Added apk; Called sign rs]).
    repeat split; try assumption.
    rewrite registered_app, Hpre. reflexivity.
  - right. right.
    exists rb, rs, (pre ++ [Called build rb; Added apk; Called sign rs; Added idx]).
    repeat split; try assumption.
    rewrite registered_app, Hpre. reflexivity.
Qed.

(** C4 as stated fails: when the signing tool fails, [Run] returns its
    error and the package built for that architecture is registered all
    the same. *)
Lemma package_registered_when_signing_fails :
  let run := alpine.Run "keys/abuild.rsa.pub"
               (failingOn isSign "exit status 1")
               (sampleCtx [sampleSpec] []) [Added (sampleArtifact Binary "app")] in
  fst run = Fail (ErrMsg ("exit status 1:" +:+ newline))
  /\ map Type' (registered (snd run)) = [Binary; APK]
  /\ map Goarch (registered (snd run)) = ["amd64"; "amd64"].
Proof. vm_compute. repeat split. Qed.

(** C2.  The error of writing the build descriptor is dropped: with a file
    system that refuses the write of APKBUILD and lets everything else
    succeed, [Run] goes on to look up the build tool, runs the chain and
    returns nil. *)
Theorem write_error_is_dropped :
  let run := alpine.Run "keys/abuild.rsa.pub"
               (failingOn isWriteFile "no space left on device")
               (sampleCtx [sampleSpec] []) [Added (sampleArtifact Binary "app")] in
  fst run = Ok tt
  /\ existsb failedWrite (snd run) = true
  /\ length (List.filter isSubprocess (snd run)) = 2
  /\ map Type' (registered (snd run)) = [Binary; APK; APKIndex].
Proof. vm_compute. repeat split. Qed.

Section RunRegisters.

Variable pubKeyPath : string.
Variable os : Oracle.
Variable ctx : Context.

Lemma packageSpec_added (spec : config.Alpine) (w : World) :
  exists evs,
    snd (alpine.packageSpec pubKeyPath os ctx spec w) = w ++ evs
    /\ forall a, In a (registered evs) ->
         exists bin,
           In bin (registered (w ++ evs)) /\ alpine.binaryFilter bin = true
           /\ producedBy ctx spec bin a.
Proof.
  destruct (packageSpec_cases pubKeyPath os ctx spec w) as (pre & Hpre & Hcases).
  apply registered_setupCalls in Hpre.
  destruct Hcases as [(msg & ->)|(pwd & ->)].
  - exists pre. split; [reflexivity|]. rewrite Hpre. intros a [].
  - destruct (forEach_added
                (alpine.packageArch os ctx spec pwd (localPathOf ctx spec)
                   (filepath.Join [pwd; localPathOf ctx spec]) (repoPathOf spec)
                   (filepath.Dir pubKeyPath))
                (fun _ bin a => producedBy ctx spec bin a)
                (fun _ _ _ _ H => H)
                (fun bin w0 => packageArch_added os ctx spec pwd _ _ _ _ bin w0)
                (List.filter alpine.binaryFilter (registered w)) (w ++ pre))
      as (evs & Hw & Ha).
    exists (pre ++ evs). rewrite Hw, <- app_assoc. split; [reflexivity|].
    intros a Hin. rewrite registered_app, Hpre in Hin. simpl in Hin.
    destruct (Ha a Hin) as (bin & Hbin & Hprod).
    apply filter_In in Hbin as [Hreg Hf].
    exists bin. split; [|split; assumption].
    rewrite registered_app. apply in_or_app. left. exact Hreg.
Qed.

Lemma Run_added (w : World) :
  exists evs,
    snd (alpine.Run pubKeyPath os ctx w) = w ++ evs
    /\ forall a, In a (registered evs) ->
         exists spec bin,
           In spec (config.Alpines (Config ctx))
           /\ In bin (registered (w ++ evs)) /\ alpine.binaryFilter bin = true
           /\ producedBy ctx spec bin a.
Proof.
  unfold alpine.Run.
  destruct (config.Alpines (Config ctx)) as [|spec0 specs] eqn:Hcfg.
  - exists []. simpl. rewrite app_nil_r. split; [reflexivity|]. intros a [].
  - destruct (forEach_added (alpine.packageSpec pubKeyPath os ctx)
                (fun w0 spec a =>
                   exists bin, In bin (registered w0) /\ alpine.binaryFilter bin = true
                               /\ producedBy ctx spec bin a)) with (l := spec0 :: specs) (w := w)
      as (evs & Hw & Ha).
    + intros w0 evs spec a (bin & Hreg & Hf & Hp). exists bin.
      split; [|split; assumption].
      rewrite registered_app. apply in_or_app. left. exact Hreg.
    + intros spec w0. apply packageSpec_added.
    + exists evs. split; [exact Hw|].
      intros a Hin. destruct (Ha a Hin) as (spec & Hspec & bin & Hrest).
      exists spec, bin. split; assumption.
Qed.

End RunRegisters.

(** C10 (amended).  Every artifact registered by [Run] is the package or
    the index built for a configured spec and a registered plain linux
    binary without ARM variant.  It carries the Go architecture of that
    binary in [Goarch], "linux" in [Goos] and an empty [Goarm]; the
    translated architecture is the value of "AlpineArch" in [Extra], the
    last element joined into [RepoDir], which is
    [filepath.Join(root, branch, repository, translated)], and a directory
    of [Path], which is
    [filepath.Join(workdir, "dist", translated, name)]. *)
Theorem registered_artifact_fields (pubKeyPath : string) (os : Oracle) (ctx : Context)
    (w : World) :
  exists evs,
    snd (alpine.Run pubKeyPath os ctx w) = w ++ evs
    /\ forall a, In a (registered evs) ->
         exists spec bin,
           let arch := alpine.alpineArch (Goarch bin) in
           In spec (config.Alpines (Config ctx))
           /\ In bin (registered (w ++ evs))
           /\ Type' bin = Binary /\ Goos bin = "linux" /\ Goarm bin = ""
           /\ (Type' a = APK \/ Type' a = APKIndex)
           /\ Goarch a = Goarch bin /\ Goos a = "linux" /\ Goarm a = ""
           /\ Extra a = {[ "AlpineArch" := arch ]}
           /\ RepoDir a
              = filepath.Join [config.Root spec; config.Branch spec;
                               config.Repository spec; arch]
           /\ Path a
              = filepath.Join [localPathOf ctx spec; alpine.abuildOutputDir; arch;
                               artifact.Name a]
           /\ (Goarch bin = "amd64" ->
               Goarch a = "amd64" /\ Extra a !! "AlpineArch" = Some "x86_64").
Proof.
  destruct (Run_added pubKeyPath os ctx w) as (evs & Hw & Ha).
  exists evs. split; [exact Hw|].
  intros a Hin. destruct (Ha a Hin) as (spec & bin & Hspec & Hreg & Hf & Hprod).
  exists spec, bin. cbv zeta.
  apply binaryFilter_spec in Hf as (Ht & Hos & Harm).
  split; [exact Hspec|]. split; [exact Hreg|].
  split; [exact Ht|]. split; [exact Hos|]. split; [exact Harm|].
  destruct Hprod as [-> | ->]; cbn [Type' Goarch Goos Goarm Extra RepoDir Path
    artifact.Name alpine.apkArtifact alpine.apkIndexArtifact].
  - split; [left; reflexivity|]. repeat (split; [reflexivity|]).
    unfold repoPathOf. rewrite Join3_Join. split; [reflexivity|].
    rewrite (Join_Join [localPathOf ctx spec; alpine.abuildOutputDir;
                        alpine.alpineArch (Goarch bin)]).
    split; [reflexivity|].
    intros Hamd. rewrite Hamd. split; reflexivity.
  - split; [right; reflexivity|]. repeat (split; [reflexivity|]).
    unfold repoPathOf. rewrite Join3_Join. split; [reflexivity|].
    rewrite (Join_Join [localPathOf ctx spec; alpine.abuildOutputDir;
                        alpine.alpineArch (Goarch bin)]).
    split; [reflexivity|].
    intros Hamd. rewrite Hamd. split; reflexivity.
Qed.

(** C10 as stated fails on "only": the translated architecture is also a
    directory of the local path of both registered artifacts. *)
Lemma translated_arch_in_path :
  let run := alpine.Run "keys/abuild.rsa.pub" allSucceed
               (sampleCtx [sampleSpec] []) [Added (sampleArtifact Binary "app")] in
  map Goarch (registered (snd run)) = ["amd64"; "amd64"; "amd64"]
  /\ map Path (registered (snd run))
     = ["dist/app";
        "dist/alpine-app/dist/x86_64/app-1.2.3-r1.apk";
        "dist/alpine-app/dist/x86_64/APKINDEX.tar.gz"]
  /\ map RepoDir (registered (snd run))
     = [""; "alpine/edge/main/x86_64"; "alpine/edge/main/x86_64"]
  /\ map (fun a => existsb (String.eqb "x86_64") (filepath.split (Path a)))
       (registered (snd run))
     = [false; true; true].
Proof. vm_compute. repeat split. Qed.

(** ** Skipped stages *)

Lemma plainError_not_skip (e : error) : plainError e -> pipe.IsSkip e = false.
Proof. intros [(msg & ->)|(msg & ->)]; reflexivity. Qed.

Lemma packageSpec_fail (pubKeyPath : string) (os : Oracle) (ctx : Context)
    (spec : config.Alpine) (w : World) (e : error) :
  fst (alpine.packageSpec pubKeyPath os ctx spec w) = Fail e -> plainError e.
Proof.
  destruct (packageSpec_cases pubKeyPath os ctx spec w) as (pre & _ & Hcases).
  destruct Hcases as [(msg & ->)|(pwd & ->)].
  - intros [= <-]. left. eauto.
  - apply forEach_fail. intros bin w0 e0. apply packageArch_fail.
Qed.

Lemma Run_fail (pubKeyPath : string) (os : Oracle) (ctx : Context) (w : World) (e : error) :
  config.Alpines (Config ctx) <> [] ->
  fst (alpine.Run pubKeyPath os ctx w) = Fail e -> plainError e.
Proof.
  unfold alpine.Run. destruct (config.Alpines (Config ctx)) as [|spec specs]; [congruence|].
  intros _. apply forEach_fail. intros spec0 w0 e0. apply packageSpec_fail.
Qed.

Lemma Publish_fail (os : Oracle) (ctx : Context) (w : World) (e : error) :
  config.S3s (Config ctx) <> [] ->
  fst (s3.Publish os ctx w) = Fail e ->
  (exists msg, e = ErrExternal msg) \/ (exists errs, errs <> [] /\ e = ErrGroup errs).
Proof.
  rewrite Publish_run. destruct (config.S3s (Config ctx)) as [|conf confs]; [congruence|].
  intros _. cbv zeta. destruct (err (os w (CheckPipe ctx "s3"))) as [msg|].
  - intros [= <-]. left. eauto.
  - rewrite fanOut_runAll. simpl.
    destruct (failuresOf _) as [|e0 errs]; [discriminate|].
    intros [= <-]. right. exists (e0 :: errs). split; [discriminate|reflexivity].
Qed.

(** C9.  With no destination configured [Publish] returns the skip
    signal, and with no package spec configured [Run] returns the skip
    signal; in both cases nothing is called and nothing is registered.
    The signal is recognised by [pipe.IsSkip] and is no other outcome of
    the stage: a configured stage returns nil or an error that is not a
    skip (the error of a call, or for [Publish] the combined error of the
    failed units), and [upload] with no matching artifact returns nil
    after the two template resolutions, without opening or uploading
    anything. *)
Theorem not_configured_is_a_skip (pubKeyPath : string) (os : Oracle) (ctx : Context)
    (w : World) :
  (config.S3s (Config ctx) = [] ->
   s3.Publish os ctx w = (Fail (pipe.Skip "s3 section is not configured"), w))
  /\ (config.Alpines (Config ctx) = [] ->
      alpine.Run pubKeyPath os ctx w
      = (Fail (pipe.Skip "alpine section is not configured"), w))
  /\ (forall reason, pipe.IsSkip (pipe.Skip reason) = true)
  /\ (config.S3s (Config ctx) <> [] ->
      forall e, fst (s3.Publish os ctx w) = Fail e -> pipe.IsSkip e = false)
  /\ (config.Alpines (Config ctx) <> [] ->
      forall e, fst (alpine.Run pubKeyPath os ctx w) = Fail e -> pipe.IsSkip e = false)
  /\ (forall (conf : config.S3) (filters : list artifact.Filter),
        let tb := TmplApply ctx (config.Bucket conf) in
        let w1 := w ++ [Called tb (os w tb)] in
        let tf := TmplApply ctx (config.Folder conf) in
        let w2 := w1 ++ [Called tf (os w1 tf)] in
        err (os w tb) = None -> err (os w1 tf) = None ->
        s3.typeFilters [] (config.Artifacts conf) = Ok filters ->
        List.filter (artifact.Or filters) (registered w2) = [] ->
        s3.upload os ctx conf w = (Ok tt, w2)).
Proof.
  split; [|split; [|split; [|split; [|split]]]].
  - intros Hcfg. unfold s3.Publish. rewrite Hcfg. reflexivity.
  - intros Hcfg. unfold alpine.Run. rewrite Hcfg. reflexivity.
  - reflexivity.
  - intros Hcfg e He. destruct (Publish_fail os ctx w e Hcfg He) as [(msg & ->)|(errs & _ & ->)];
      reflexivity.
  - intros Hcfg e He. apply plainError_not_skip, (Run_fail pubKeyPath os ctx w e Hcfg He).
  - intros conf filters tb w1 tf w2 Hb Hf Ht Hnone.
    pose proof (upload_run os ctx conf w) as Hrun. cbv zeta in Hrun.
    fold tb w1 tf w2 in Hrun. rewrite Hb, Hf, Ht, Hnone in Hrun. exact Hrun.
Qed.

Lemma not_configured_is_a_skip_witness :
  s3.Publish allSucceed (sampleCtx [] []) []
  = (Fail (pipe.Skip "s3 section is not configured"), [])
  /\ alpine.Run "keys/abuild.rsa.pub" allSucceed (sampleCtx [] []) []
     = (Fail (pipe.Skip "alpine section is not configured"), [])
  /\ fst (s3.upload allSucceed (sampleCtx [] [sampleS3 ["apk"]]) (sampleS3 ["apk"])
            [Added (sampleArtifact Binary "app")]) = Ok tt.
Proof.
  destruct (not_configured_is_a_skip "keys/abuild.rsa.pub" allSucceed (sampleCtx [] []) [])
    as (Hp & Hr & _).
  split; [apply Hp; reflexivity|]. split; [apply Hr; reflexivity|].
  destruct (not_configured_is_a_skip "keys/abuild.rsa.pub" allSucceed
              (sampleCtx [] [sampleS3 ["apk"]]) [Added (sampleArtifact Binary "app")])
    as (_ & _ & _ & _ & _ & Hu).
  rewrite (Hu (sampleS3 ["apk"]) [artifact.ByType APK]); reflexivity.
Defined.

(** * Further properties of the two pipes *)

(** ** The defaults *)

Lemma s3_setDefaults_idem (conf : config.S3) :
  s3.setDefaults (s3.setDefaults conf) = s3.setDefaults conf.
Proof.
  unfold s3.setDefaults.
  destruct (String.eqb (config.Bucket conf) "") eqn:Hb; [rewrite Hb; reflexivity|].
  cbn [config.Bucket config.Region config.ACL config.Folder config.Endpoint
       config.Profile config.Artifacts].
  rewrite Hb.
  destruct (String.eqb (config.Region conf) "") eqn:Hr;
    destruct (String.eqb (config.ACL conf) "") eqn:Ha;
    cbn; rewrite ?Hr, ?Ha; reflexivity.
Qed.

(** X1.  [s3.Default] never returns an error and leaves everything but
    the destinations as it was.  A destination with an empty bucket is not
    touched; any other destination keeps its fields, except that an empty
    region becomes "us-east-1" and an empty ACL becomes "private", so that
    both are non-empty afterwards.  Running [Default] on its own result
    changes nothing. *)
Theorem s3_Default_sets_region_and_acl (ctx : Context) :
  let ctx' := fst (s3.Default ctx) in
  snd (s3.Default ctx) = None
  /\ length (config.S3s (Config ctx')) = length (config.S3s (Config ctx))
  /\ (forall (i : nat) (conf : config.S3),
        nth_error (config.S3s (Config ctx)) i = Some conf ->
        exists conf',
          nth_error (config.S3s (Config ctx')) i = Some conf'
          /\ config.Bucket conf' = config.Bucket conf
          /\ config.Folder conf' = config.Folder conf
          /\ config.Endpoint conf' = config.Endpoint conf
          /\ config.Profile conf' = config.Profile conf
          /\ config.Artifacts conf' = config.Artifacts conf
          /\ (config.Bucket conf = "" -> conf' = conf)
          /\ (config.Bucket conf <> "" ->
              config.Region conf' <> "" /\ config.ACL conf' <> ""
              /\ (config.Region conf <> "" -> config.Region conf' = config.Region conf)
              /\ (config.Region conf = "" -> config.Region conf' = "us-east-1")
              /\ (config.ACL conf <> "" -> config.ACL conf' = config.ACL conf)
              /\ (config.ACL conf = "" -> config.ACL conf' = "private")))
  /\ s3.Default ctx' = (ctx', None).
Proof.
  cbv zeta. unfold s3.Default. cbn [fst snd Config config.S3s config.Dist config.Builds
    config.Alpines Version Parallelism].
  split; [reflexivity|]. split; [apply length_map|]. split.
  - intros i conf Hi. exists (s3.setDefaults conf).
    split; [rewrite nth_error_map, Hi; reflexivity|].
    unfold s3.setDefaults.
    destruct (String.eqb_spec (config.Bucket conf) "") as [Hb|Hb].
    + repeat split; try reflexivity; try congruence.
    + cbn [config.Bucket config.Region config.ACL config.Folder config.Endpoint
           config.Profile config.Artifacts].
      repeat (split; [reflexivity|]). split; [congruence|]. intros _.
      destruct (String.eqb_spec (config.Region conf) "") as [Hr|Hr];
        destruct (String.eqb_spec (config.ACL conf) "") as [Ha|Ha];
        repeat split; congruence || discriminate || assumption.
  - f_equal. f_equal. f_equal. rewrite map_map. apply map_ext. apply s3_setDefaults_idem.
Qed.

Lemma s3_Default_sets_region_and_acl_witness :
  exists conf',
    nth_error (config.S3s (Config (fst (s3.Default
       (sampleCtx [] [ {| config.Bucket := "downloads"; config.Folder := "";
                          config.Region := ""; config.ACL := "";
                          config.Endpoint := ""; config.Profile := "";
                          config.Artifacts := [] |} ]))))) 0 = Some conf'
    /\ config.Region conf' = "us-east-1" /\ config.ACL conf' = "private".
Proof.
  pose (conf := {| config.Bucket := "downloads"; config.Folder := "";
                   config.Region := ""; config.ACL := "";
                   config.Endpoint := ""; config.Profile := "";
                   config.Artifacts := [] |}).
  destruct (s3_Default_sets_region_and_acl (sampleCtx [] [conf])) as (_ & _ & H & _).
  destruct (H 0%nat conf eq_refl) as (conf' & Hn & _ & _ & _ & _ & _ & _ & Hd).
  exists conf'. split; [exact Hn|].
  destruct Hd as (_ & _ & _ & Hr & _ & Ha); [discriminate|].
  split; [apply Hr|apply Ha]; reflexivity.
Defined.

Lemma alpine_setDefaults_idem (spec : config.Alpine) :
  alpine.setDefaults (alpine.setDefaults spec) = alpine.setDefaults spec.
Proof.
  unfold alpine.setDefaults.
  cbn [config.Name config.Root config.Branch config.Repository config.Rel
       config.Contributor config.Maintainer config.Description config.URL
       config.License config.CheckFn].
  destruct (String.eqb (config.Root spec) "") eqn:Hr;
    destruct (String.eqb (config.Branch spec) "") eqn:Hb;
    destruct (String.eqb (config.Repository spec) "") eqn:Hp;
    cbn; rewrite ?Hr, ?Hb, ?Hp; reflexivity.
Qed.

Lemma defaultAlpines_with_keys (pub priv : string) (l : list config.Alpine) :
  pub <> "" -> priv <> "" ->
  alpine.defaultAlpines pub priv l = (map alpine.setDefaults l, None).
Proof.
  intros Hpub Hpriv. apply String.eqb_neq in Hpub, Hpriv.
  induction l as [|a l IH]; [reflexivity|].
  simpl. rewrite Hpub, Hpriv, IH. reflexivity.
Qed.

(** X2.  With both key paths set, [alpine.Default] returns nil and gives
    every package spec a non-empty root, branch and repository: the
    configured value where there is one, "alpine", "edge" and "main"
    otherwise; every other field of a spec (name, revision, contributor,
    maintainer, description, URL, license, check function) and the rest of
    the context (dist, builds, destinations, version, parallelism) are
    kept, and running [Default] on its own result changes nothing. *)
Theorem alpine_Default_with_keys (pubKeyPath privKeyPath : string) (ctx : Context) :
  pubKeyPath <> "" -> privKeyPath <> "" ->
  let ctx' := fst (alpine.Default pubKeyPath privKeyPath ctx) in
  snd (alpine.Default pubKeyPath privKeyPath ctx) = None
  /\ config.Alpines (Config ctx') = map alpine.setDefaults (config.Alpines (Config ctx))
  /\ config.S3s (Config ctx') = config.S3s (Config ctx)
  /\ config.Dist (Config ctx') = config.Dist (Config ctx)
  /\ config.Builds (Config ctx') = config.Builds (Config ctx)
  /\ Version ctx' = Version ctx
  /\ Parallelism ctx' = Parallelism ctx
  /\ (forall spec', In spec' (config.Alpines (Config ctx')) ->
        config.Root spec' <> "" /\ config.Branch spec' <> ""
        /\ config.Repository spec' <> "")
  /\ (forall spec, In spec (config.Alpines (Config ctx)) ->
        let spec' := alpine.setDefaults spec in
        config.Name spec' = config.Name spec /\ config.Rel spec' = config.Rel spec
        /\ config.Contributor spec' = config.Contributor spec
        /\ config.Maintainer spec' = config.Maintainer spec
        /\ config.Description spec' = config.Description spec
        /\ config.URL spec' = config.URL spec
        /\ config.License spec' = config.License spec
        /\ config.CheckFn spec' = config.CheckFn spec
        /\ (config.Root spec <> "" -> config.Root spec' = config.Root spec)
        /\ (config.Root spec = "" -> config.Root spec' = "alpine")
        /\ (config.Branch spec <> "" -> config.Branch spec' = config.Branch spec)
        /\ (config.Branch spec = "" -> config.Branch spec' = "edge")
        /\ (config.Repository spec <> "" ->
            config.Repository spec' = config.Repository spec)
        /\ (config.Repository spec = "" -> config.Repository spec' = "main"))
  /\ alpine.Default pubKeyPath privKeyPath ctx' = (ctx', None).
Proof.
  intros Hpub Hpriv. cbv zeta. unfold alpine.Default.
  rewrite (defaultAlpines_with_keys _ _ _ Hpub Hpriv).
  cbn [fst snd Config config.S3s config.Dist config.Builds config.Alpines Version
       Parallelism].
  rewrite (defaultAlpines_with_keys _ _ _ Hpub Hpriv).
  do 7 (split; [reflexivity|]). split; [|split].
  - intros spec' Hin. apply in_map_iff in Hin as (spec & <- & _).
    unfold alpine.setDefaults. cbn [config.Root config.Branch config.Repository].
    destruct (String.eqb_spec (config.Root spec) "");
      destruct (String.eqb_spec (config.Branch spec) "");
      destruct (String.eqb_spec (config.Repository spec) "");
      repeat split; assumption || discriminate.
  - intros spec _. unfold alpine.setDefaults.
    cbn [config.Name config.Rel config.Root config.Branch config.Repository
         config.Contributor config.Maintainer config.Description config.URL
         config.License config.CheckFn].
    destruct (String.eqb_spec (config.Root spec) "");
      destruct (String.eqb_spec (config.Branch spec) "");
      destruct (String.eqb_spec (config.Repository spec) "");
      repeat split; congruence.
  - f_equal. f_equal. f_equal. rewrite map_map. apply map_ext, alpine_setDefaults_idem.
Qed.

Lemma alpine_Default_with_keys_witness :
  snd (alpine.Default "keys/abuild.rsa.pub" "keys/abuild.rsa" (sampleCtx [sampleSpec] []))
  = None.
Proof.
  apply (alpine_Default_with_keys "keys/abuild.rsa.pub" "keys/abuild.rsa"
           (sampleCtx [sampleSpec] [])); discriminate.
Defined.

(** ** The binaries of the build descriptor *)

Lemma binaries_fold_other (builds : list config.Build) (m : gmap string string) (k : string) :
  ~ In k (map (fun b => filepath.Base (config.Binary b)) builds) ->
  fold_left
    (fun binaries build =>
       let binary := filepath.Base (config.Binary build) in
       <[binary := filepath.Join ["$pkgarch"; binary]]> binaries)
    builds m !! k = m !! k.
Proof.
  revert m. induction builds as [|b builds IH]; intros m Hout; [reflexivity|].
  simpl in *. rewrite IH by tauto.
  apply lookup_insert_ne. intros Heq. apply Hout. left. exact Heq.
Qed.

Lemma binaries_fold_in (builds : list config.Build) (m : gmap string string) (k : string) :
  In k (map (fun b => filepath.Base (config.Binary b)) builds) ->
  fold_left
    (fun binaries build =>
       let binary := filepath.Base (config.Binary build) in
       <[binary := filepath.Join ["$pkgarch"; binary]]> binaries)
    builds m !! k = Some (filepath.Join ["$pkgarch"; k]).
Proof.
  revert m. induction builds as [|b builds IH]; intros m Hin; [destruct Hin|].
  simpl in *.
  destruct (in_dec string_dec k (map (fun b => filepath.Base (config.Binary b)) builds))
    as [Hlater|Hlater].
  - apply IH, Hlater.
  - destruct Hin as [<-|Hin]; [|contradiction].
    rewrite binaries_fold_other by assumption. apply lookup_insert_eq.
Qed.

Lemma Join_pkgarch (k : string) :
  goodElem k -> k <> ".." -> filepath.Join ["$pkgarch"; k] = "$pkgarch/" +:+ k.
Proof.
  intros (Hs & Hne & Hnd) Hndd.
  unfold filepath.Join. cbn [filepath.dropEmpty String.eqb Ascii.eqb Bool.eqb].
  change (filepath.joinSep ["$pkgarch"; k]) with ("$pkgarch" +:+ "/" +:+ k).
  rewrite Clean_unfold by discriminate.
  rewrite split_app_slash, (split_noSlash_id k Hs).
  change (filepath.split "$pkgarch") with ["$pkgarch"].
  change (filepath.rooted ("$pkgarch" +:+ "/" +:+ k)) with false.
  unfold filepath.cleanElems. cbn [app fold_left].
  change (filepath.cleanStep false [] "$pkgarch") with ["$pkgarch"].
  unfold filepath.cleanStep.
  apply String.eqb_neq in Hne, Hnd, Hndd. rewrite Hne, Hnd, Hndd. reflexivity.
Qed.

(** X3.  The binaries handed to the descriptor template by
    [generateApkBuildFile] map the base name of every build's binary, and
    nothing else, to [filepath.Join("$pkgarch", base)]; two builds with the
    same base name give one entry.  For an ordinary base name (not empty,
    not "." or "..", no separator) the value is "$pkgarch/" followed by
    the name. *)
Theorem binaries_lookup (builds : list config.Build) (k : string) :
  let names := map (fun b => filepath.Base (config.Binary b)) builds in
  (In k names ->
   alpine.binariesOf builds !! k = Some (filepath.Join ["$pkgarch"; k]))
  /\ (~ In k names -> alpine.binariesOf builds !! k = None)
  /\ (goodElem k -> k <> ".." -> filepath.Join ["$pkgarch"; k] = "$pkgarch/" +:+ k).
Proof.
  cbv zeta. unfold alpine.binariesOf. split; [|split].
  - apply binaries_fold_in.
  - intros Hout. rewrite binaries_fold_other by assumption. apply lookup_empty.
  - apply Join_pkgarch.
Qed.

Lemma binaries_lookup_witness :
  alpine.binariesOf [ {| config.Binary := "bin/app" |}; {| config.Binary := "app" |} ] !! "app"
  = Some "$pkgarch/app".
Proof.
  destruct (binaries_lookup
              [ {| config.Binary := "bin/app" |}; {| config.Binary := "app" |} ] "app")
    as (Hin & _ & Hjoin).
  rewrite Hin by (simpl; tauto).
  rewrite Hjoin; [reflexivity| |discriminate].
  repeat split; discriminate.
Defined.

(** ** What a run of the packaging pipe registers *)

Lemma filter_none {A} (f : A -> bool) (l : list A) :
  (forall a, In a l -> f a = false) -> List.filter f l = [].
Proof.
  induction l as [|x l IH]; intros H; [reflexivity|].
  simpl. rewrite (H x) by (left; reflexivity). apply IH.
  intros a Ha. apply H. right. exact Ha.
Qed.

Lemma producedBy_not_selected (ctx : Context) (spec : config.Alpine) (bin a : Artifact) :
  producedBy ctx spec bin a -> alpine.binaryFilter a = false.
Proof.
  intros Hp. destruct (alpine.binaryFilter a) eqn:Hf; [|reflexivity].
  apply binaryFilter_spec in Hf as (Ht & _).
  destruct Hp as [-> | ->]; discriminate.
Qed.

(** X4.  [Run] never registers an artifact that it would itself select:
    the binaries eligible after a run, finished or failed, are those
    eligible before it, so every package spec of one run works on the same
    binaries, and the artifacts registered before the run are kept in
    place. *)
Theorem Run_keeps_selection (pubKeyPath : string) (os : Oracle) (ctx : Context)
    (w : World) :
  let w' := snd (alpine.Run pubKeyPath os ctx w) in
  List.filter alpine.binaryFilter (registered w')
  = List.filter alpine.binaryFilter (registered w)
  /\ exists added, registered w' = registered w ++ added.
Proof.
  cbv zeta. destruct (Run_added pubKeyPath os ctx w) as (evs & -> & Ha).
  rewrite registered_app. split; [|eauto].
  rewrite List.filter_app, (filter_none _ (registered evs)), app_nil_r; [reflexivity|].
  intros a Hin. destruct (Ha a Hin) as (spec & bin & _ & _ & _ & Hp).
  exact (producedBy_not_selected _ _ _ _ Hp).
Qed.

(** What a loop that ends well has registered, given what each iteration
    registers when it ends well.  [I] is kept by the iterations. *)
Lemma forEach_ok_registered {A} (body : A -> M unit) (g : A -> list Artifact)
    (I : World -> Prop) :
  (forall x w w', I w -> body x w = (Ok tt, w') ->
                  registered w' = registered w ++ g x /\ I w') ->
  forall l w w', I w -> forEach l body w = (Ok tt, w') ->
                 registered w' = registered w ++ flat_map g l /\ I w'.
Proof.
  intros Hbody l. induction l as [|x l IH]; intros w w' HI.
  - intros [= <-]. simpl. rewrite app_nil_r. split; [reflexivity|exact HI].
  - rewrite forEach_cons. destruct (body x w) as [[[]|e] w1] eqn:Hx; [|discriminate].
    intros Hrest. destruct (Hbody x w w1 HI Hx) as (Hr1 & HI1).
    destruct (IH w1 w' HI1 Hrest) as (Hr & HI').
    split; [|exact HI']. rewrite Hr, Hr1, <- app_assoc. reflexivity.
Qed.

Lemma packageArch_ok (os : Oracle) (ctx : Context) (spec : config.Alpine)
    (pwd localPath localPathAbs repoPath pubKeyName : string) (bin : Artifact)
    (w w' : World) :
  alpine.packageArch os ctx spec pwd localPath localPathAbs repoPath pubKeyName bin w
  = (Ok tt, w') ->
  registered w'
  = registered w ++ [alpine.apkArtifact ctx spec localPath repoPath bin;
                     alpine.apkIndexArtifact localPath repoPath bin].
Proof.
  destruct (packageArch_cases os ctx spec pwd localPath localPathAbs repoPath
              pubKeyName bin w) as (pre & Hpre & Hcases).
  apply registered_fileCalls in Hpre.
  destruct Hcases as [(msg & ->)|[(rb & msg & _ & ->)|[(rb & rs & msg & _ & _ & ->)
                     |(rb & rs & _ & _ & ->)]]]; try discriminate.
  intros [= <-]. rewrite !registered_app, Hpre. reflexivity.
Qed.

Lemma packageSpec_ok (pubKeyPath : string) (os : Oracle) (ctx : Context)
    (spec : config.Alpine) (w w' : World) :
  alpine.packageSpec pubKeyPath os ctx spec w = (Ok tt, w') ->
  registered w'
  = registered w
    ++ flat_map (packagePair ctx spec) (List.filter alpine.binaryFilter (registered w)).
Proof.
  destruct (packageSpec_cases pubKeyPath os ctx spec w) as (pre & Hpre & Hcases).
  apply registered_setupCalls in Hpre.
  destruct Hcases as [(msg & ->)|(pwd & ->)]; [discriminate|].
  intros Hloop.
  destruct (forEach_ok_registered
              (alpine.packageArch os ctx spec pwd (localPathOf ctx spec)
                 (filepath.Join [pwd; localPathOf ctx spec]) (repoPathOf spec)
                 (filepath.Dir pubKeyPath))
              (packagePair ctx spec) (fun _ => True)) with
    (l := List.filter alpine.binaryFilter (registered w)) (w := w ++ pre) (w' := w')
    as (Hr & _); [|exact I|exact Hloop|].
  - intros bin w0 w1 _ Hok. split; [|exact I].
    apply (packageArch_ok _ _ _ _ _ _ _ _ _ _ _ Hok).
  - rewrite Hr, registered_app, Hpre, app_nil_r. reflexivity.
Qed.

(** X5.  When [Run] returns nil, at least one package spec is configured
    and the run has registered, after the artifacts that were there, the
    package and then the index of every pair of a spec and an eligible
    binary: spec by spec in configuration order, binary by binary in
    registration order, two artifacts per pair. *)
Theorem successful_Run_registers_pairs (pubKeyPath : string) (os : Oracle)
    (ctx : Context) (w w' : World) :
  alpine.Run pubKeyPath os ctx w = (Ok tt, w') ->
  let specs := config.Alpines (Config ctx) in
  let bins := List.filter alpine.binaryFilter (registered w) in
  specs <> []
  /\ registered w'
     = registered w
       ++ flat_map (fun spec => flat_map (packagePair ctx spec) bins) specs
  /\ length (registered w')
     = (length (registered w) + 2 * (length specs * length bins))%nat.
Proof.
  intros Hrun specs bins. unfold alpine.Run in Hrun. fold specs in Hrun.
  assert (specs <> []) as Hne.
  { destruct specs; [discriminate|congruence]. }
  split; [exact Hne|].
  assert (forEach specs (alpine.packageSpec pubKeyPath os ctx) w = (Ok tt, w')) as Hloop.
  { destruct specs; [congruence|exact Hrun]. }
  destruct (forEach_ok_registered (alpine.packageSpec pubKeyPath os ctx)
              (fun spec => flat_map (packagePair ctx spec) bins)
              (fun w0 => List.filter alpine.binaryFilter (registered w0) = bins))
    with (l := specs) (w := w) (w' := w') as (Hr & _);
    [|reflexivity|exact Hloop|].
  - intros spec w0 w1 Hsel Hok. pose proof (packageSpec_ok _ _ _ _ _ _ Hok) as Hr.
    rewrite Hsel in Hr. split; [exact Hr|].
    rewrite Hr, List.filter_app, Hsel.
    rewrite (filter_none _ (flat_map _ _)), app_nil_r; [reflexivity|].
    intros a Hin. apply in_flat_map in Hin as (bin & _ & Hin).
    apply (producedBy_not_selected ctx spec bin).
    destruct Hin as [<-|[<-|[]]]; [left|right]; reflexivity.
  - split; [exact Hr|]. rewrite Hr, length_app. f_equal.
    clear. induction specs as [|spec specs IH]; [reflexivity|].
    simpl flat_map. rewrite length_app, IH.
    assert (length (flat_map (packagePair ctx spec) bins) = (2 * length bins)%nat) as ->.
    { clear. induction bins as [|bin bins IH]; [reflexivity|].
      simpl. rewrite IH. lia. }
    simpl length. lia.
Qed.

Lemma successful_Run_registers_pairs_witness :
  map Type'
    (registered (snd (alpine.Run "keys/abuild.rsa.pub" allSucceed
                        (sampleCtx [sampleSpec] [])
                        [Added (sampleArtifact Binary "app")])))
  = [Binary; APK; APKIndex].
Proof.
  destruct (alpine.Run "keys/abuild.rsa.pub" allSucceed (sampleCtx [sampleSpec] [])
              [Added (sampleArtifact Binary "app")]) as [r w'] eqn:Hrun.
  assert (r = Ok tt) as ->.
  { apply (f_equal fst) in Hrun. vm_compute in Hrun. congruence. }
  destruct (successful_Run_registers_pairs _ _ _ _ _ Hrun) as (_ & Hr & _).
  simpl snd. rewrite Hr. reflexivity.
Defined.

(** ** What the publish pipe selects and uploads *)

Lemma typeFilters_ok (names : list string) (fs filters : list artifact.Filter) :
  s3.typeFilters fs names = Ok filters ->
  forall a, artifact.Or filters a = artifact.Or fs a || kindSelected names a.
Proof.
  revert fs. induction names as [|n names IH]; intros fs.
  - intros [= <-] a. unfold kindSelected. simpl. rewrite orb_false_r. reflexivity.
  - simpl. destruct (s3.artifactTypes !! n) as [t|] eqn:Hn; [|discriminate].
    intros H a. rewrite (IH _ H a). unfold artifact.Or, kindSelected.
    rewrite existsb_app. simpl. rewrite orb_false_r, <- orb_assoc. f_equal. f_equal.
    unfold artifact.ByType. apply bool_decide_ext. split; [intros ->|intros [= ->]]; reflexivity.
Qed.

Lemma artifactTypes_never_plain_binary (name : string) :
  s3.artifactTypes !! name <> Some Binary.
Proof.
  unfold s3.artifactTypes. simpl.
  repeat match goal with
  | |- <[?k := _]> _ !! name <> _ =>
      destruct (String.eqb_spec k name) as [<-|?];
      [rewrite lookup_insert_eq; discriminate|rewrite lookup_insert_ne by assumption]
  end.
  rewrite lookup_empty. discriminate.
Qed.

Lemma kindSelected_type (names : list string) (a : Artifact) :
  kindSelected names a = true
  <-> exists name, In name names /\ s3.artifactTypes !! name = Some (Type' a).
Proof.
  unfold kindSelected. rewrite existsb_exists. split.
  - intros (name & Hin & Hb). apply bool_decide_eq_true in Hb. eauto.
  - intros (name & Hin & Hl). exists name. split; [exact Hin|].
    apply bool_decide_eq_true. exact Hl.
Qed.

(** X6.  In [upload], whose templates resolve and whose configured kinds
    are all known, the files opened are those of the registered artifacts
    whose type is named by one of the configured kinds, each once; the
    order of the opens is that of the schedule of the group and is not
    stated.  No kind names the plain binary of a build, so such an artifact
    is never opened; with no kind configured nothing is opened and
    [upload] returns nil. *)
Theorem upload_selects_configured_kinds (os : Oracle) (ctx : Context) (conf : config.S3)
    (w : World) :
  let tb := TmplApply ctx (config.Bucket conf) in
  let w1 := w ++ [Called tb (os w tb)] in
  let tf := TmplApply ctx (config.Folder conf) in
  let w2 := w1 ++ [Called tf (os w1 tf)] in
  let names := config.Artifacts conf in
  err (os w tb) = None -> err (os w1 tf) = None ->
  firstUnknown names = None ->
  (exists evs,
      snd (s3.upload os ctx conf w) = w2 ++ evs
      /\ Permutation (omap openedPath evs)
           (map Path (List.filter (kindSelected names) (registered w))))
  /\ (forall a, kindSelected names a = true
                <-> exists name, In name names
                                 /\ s3.artifactTypes !! name = Some (Type' a))
  /\ (forall a, Type' a = Binary -> kindSelected names a = false)
  /\ (names = [] -> s3.upload os ctx conf w = (Ok tt, w2)).
Proof.
  intros tb w1 tf w2 names Hb Hf Hknown.
  destruct (typeFilters_known names [] Hknown) as (filters & Ht). simpl in Ht.
  pose proof (upload_run os ctx conf w) as Hrun. cbv zeta in Hrun.
  fold tb w1 tf w2 names in Hrun. rewrite Hb, Hf, Ht in Hrun.
  assert (registered w2 = registered w) as Hreg.
  { unfold w2, w1. rewrite !registered_app. simpl. rewrite !app_nil_r. reflexivity. }
  assert (List.filter (artifact.Or filters) (registered w2)
          = List.filter (kindSelected names) (registered w)) as Hsel.
  { rewrite Hreg. apply List.filter_ext. intros a.
    rewrite (typeFilters_ok names [] filters Ht a). reflexivity. }
  split; [|split; [|split]].
  - rewrite Hrun, fanOut_runAll, Hsel. simpl.
    destruct (runAll_uploadUnit os (s3.newS3Svc conf) (out (os w tb)) (out (os w1 tf))
                conf (List.filter (kindSelected names) (registered w)) w2)
      as (evs & Hw & Ho & _).
    exists evs. split; [exact Hw|]. rewrite Ho. reflexivity.
  - apply kindSelected_type.
  - intros a Ha. destruct (kindSelected names a) eqn:Hk; [|reflexivity].
    apply kindSelected_type in Hk as (name & _ & Hl). rewrite Ha in Hl.
    destruct (artifactTypes_never_plain_binary name Hl).
  - intros Hnone. rewrite Hrun, Hsel, Hnone.
    rewrite (filter_none (kindSelected []) (registered w)) by reflexivity.
    reflexivity.
Qed.

Lemma upload_selects_configured_kinds_witness :
  let ctx := sampleCtx [] [sampleS3 ["checksum"; "apk"]] in
  let w := [Added (sampleArtifact Binary "app");
            Added (sampleArtifact APK "app.apk");
            Added (sampleArtifact Signature "app.sig");
            Added (sampleArtifact Checksum "checksums.txt")] in
  exists evs,
    snd (s3.upload allSucceed ctx (sampleS3 ["checksum"; "apk"]) w)
    = (w ++ [Called (TmplApply ctx "downloads") {| out := "downloads"; err := None |};
             Called (TmplApply ctx "releases/{{.Version}}")
               {| out := "releases/1.2.3"; err := None |}]) ++ evs
    /\ Permutation (omap openedPath evs) ["dist/app.apk"; "dist/checksums.txt"].
Proof.
  intros ctx w.
  destruct (upload_selects_configured_kinds allSucceed ctx
              (sampleS3 ["checksum"; "apk"]) w eq_refl eq_refl eq_refl)
    as ((evs & Hw & Hp) & _).
  exists evs. split; [rewrite Hw, <- app_assoc; reflexivity|exact Hp].
Defined.

Lemma runAll_uploadUnit_inputs (os : Oracle) (svc : S3Svc) (bucket folder : string)
    (conf : config.S3) (l : list Artifact) (w : World) :
  exists evs,
    snd (runAll (s3.uploadUnit os svc bucket folder conf) l w) = w ++ evs
    /\ forallb isOpenOrUpload evs = true
    /\ length (omap uploadOf evs) = length (List.filter openedOk evs)
    /\ forall svc' input, In (svc', input) (omap uploadOf evs) ->
         svc' = svc /\ PutBucket input = bucket /\ PutACL input = config.ACL conf
         /\ exists a, In a l /\ PutBody input = Path a
                      /\ PutKey input = filepath.Join [folder; RepoDir a; artifact.Name a].
Proof.
  revert w. induction l as [|a l IH]; intros w.
  - exists []. simpl. rewrite app_nil_r.
    split; [reflexivity|]. split; [reflexivity|]. split; [reflexivity|].
    intros svc' input [].
  - simpl runAll. pose proof (uploadUnit_run os svc bucket folder conf a w) as Hu.
    cbv zeta in Hu.
    destruct (s3.uploadUnit os svc bucket folder conf a w) as [r w1].
    destruct (IH w1) as (evs & Hw & Hk & Hn & Hi).
    destruct (runAll (s3.uploadUnit os svc bucket folder conf) l w1) as [rs w2].
    simpl in Hw |- *.
    destruct (err (os w (Open (Path a)))) as [msg|] eqn:Ho.
    + injection Hu as _ ->. eexists. rewrite Hw, <- app_assoc.
      split; [reflexivity|]. rewrite !omap_app, List.filter_app.
      cbn [app forallb isOpenOrUpload andb]. split; [exact Hk|].
      split.
      * cbn [omap list_omap uploadOf List.filter openedOk app].
        rewrite Ho. simpl. exact Hn.
      * intros svc' input Hin. cbn in Hin.
        destruct (Hi svc' input Hin) as (? & ? & ? & b & Hb & ? & ?).
        repeat split; try assumption. exists b. split; [right; exact Hb|]. split; assumption.
    + injection Hu as _ ->. eexists. rewrite Hw, <- !app_assoc.
      split; [reflexivity|]. rewrite !omap_app, !List.filter_app.
      cbn [app forallb isOpenOrUpload andb]. split; [exact Hk|].
      split.
      * cbn [omap list_omap uploadOf List.filter openedOk app].
        rewrite Ho. simpl. rewrite Hn. reflexivity.
      * intros svc' input Hin. cbn in Hin. destruct Hin as [[= <- <-]|Hin].
        -- repeat split. exists a. split; [left; reflexivity|]. split; reflexivity.
        -- destruct (Hi svc' input Hin) as (? & ? & ? & b & Hb & ? & ?).
           repeat split; try assumption. exists b. split; [right; exact Hb|].
           split; assumption.
Qed.

(** X7.  In [upload], whose templates resolve and whose configured kinds
    are all known, the calls after the template resolutions are file opens
    and uploads only, with exactly one upload per file that opened: a unit
    whose file does not open uploads nothing.  Every upload goes through
    the client built from the destination (path-style addressing forced
    exactly when an endpoint is configured) and carries the resolved
    bucket, the ACL of the destination, the path of a matching artifact as
    body and [filepath.Join(folder, RepoDir, Name)] of that artifact as
    key. *)
Theorem upload_inputs (os : Oracle) (ctx : Context) (conf : config.S3) (w : World)
    (filters : list artifact.Filter) :
  let tb := TmplApply ctx (config.Bucket conf) in
  let w1 := w ++ [Called tb (os w tb)] in
  let tf := TmplApply ctx (config.Folder conf) in
  let w2 := w1 ++ [Called tf (os w1 tf)] in
  let matching := List.filter (artifact.Or filters) (registered w2) in
  err (os w tb) = None -> err (os w1 tf) = None ->
  s3.typeFilters [] (config.Artifacts conf) = Ok filters ->
  exists evs,
    snd (s3.upload os ctx conf w) = w2 ++ evs
    /\ forallb isOpenOrUpload evs = true
    /\ length (omap uploadOf evs) = length (List.filter openedOk evs)
    /\ (forall svc input, In (svc, input) (omap uploadOf evs) ->
          svc = s3.newS3Svc conf
          /\ (SvcForcePathStyle svc = true <-> config.Endpoint conf <> "")
          /\ SvcRegion svc = config.Region conf
          /\ PutBucket input = out (os w tb)
          /\ PutACL input = config.ACL conf
          /\ exists a, In a matching /\ PutBody input = Path a
                       /\ PutKey input
                          = filepath.Join [out (os w1 tf); RepoDir a; artifact.Name a]).
Proof.
  intros tb w1 tf w2 matching Hb Hf Ht.
  pose proof (upload_run os ctx conf w) as Hrun. cbv zeta in Hrun.
  fold tb w1 tf w2 in Hrun. rewrite Hb, Hf, Ht in Hrun. fold matching in Hrun.
  rewrite fanOut_runAll in Hrun. rewrite Hrun. simpl.
  destruct (runAll_uploadUnit_inputs os (s3.newS3Svc conf) (out (os w tb))
              (out (os w1 tf)) conf matching w2) as (evs & Hw & Hk & Hn & Hi).
  exists evs. split; [exact Hw|]. split; [exact Hk|]. split; [exact Hn|].
  intros svc input Hin. destruct (Hi svc input Hin) as (-> & Hbk & Hacl & a & Ha & Hbody & Hkey).
  split; [reflexivity|]. split.
  - unfold s3.newS3Svc. cbn [SvcForcePathStyle].
    rewrite negb_true_iff. split; [apply String.eqb_neq|apply String.eqb_neq].
  - split; [reflexivity|]. split; [exact Hbk|]. split; [exact Hacl|].
    exists a. split; [exact Ha|]. split; assumption.
Qed.

Lemma upload_inputs_witness :
  exists evs,
    snd (s3.upload (failingOn (opens ["dist/b"]) "no such file")
           (sampleCtx [] [sampleS3 ["checksum"]]) (sampleS3 ["checksum"])
           [Added (sampleArtifact Checksum "a"); Added (sampleArtifact Checksum "b")])
    = ([Added (sampleArtifact Checksum "a"); Added (sampleArtifact Checksum "b")]
       ++ [Called (TmplApply (sampleCtx [] [sampleS3 ["checksum"]]) "downloads")
             {| out := "downloads"; err := None |}]
       ++ [Called (TmplApply (sampleCtx [] [sampleS3 ["checksum"]]) "releases/{{.Version}}")
             {| out := "releases/1.2.3"; err := None |}]) ++ evs
    /\ length (omap uploadOf evs) = length (List.filter openedOk evs).
Proof.
  destruct (upload_inputs (failingOn (opens ["dist/b"]) "no such file")
              (sampleCtx [] [sampleS3 ["checksum"]]) (sampleS3 ["checksum"])
              [Added (sampleArtifact Checksum "a"); Added (sampleArtifact Checksum "b")]
              [artifact.ByType Checksum] eq_refl eq_refl eq_refl)
    as (evs & Hw & _ & Hn & _).
  exists evs. split; [|exact Hn].
  rewrite Hw. rewrite <- !app_assoc. reflexivity.
Defined.

Lemma runAll_only {A} (P : Event -> bool) (fn : A -> M unit) :
  (forall x w, exists evs, snd (fn x w) = w ++ evs /\ forallb P evs = true) ->
  forall l w, exists evs, snd (runAll fn l w) = w ++ evs /\ forallb P evs = true.
Proof.
  intros Hfn l. induction l as [|x l IH]; intros w.
  - exists []. simpl. rewrite app_nil_r. split; reflexivity.
  - simpl. destruct (Hfn x w) as (evs1 & Hw1 & Hp1).
    destruct (fn x w) as [r w1]. simpl in Hw1. subst w1.
    destruct (IH (w ++ evs1)) as (evs2 & Hw2 & Hp2).
    destruct (runAll fn l (w ++ evs1)) as [rs w2]. simpl in Hw2 |- *. subst w2.
    exists (evs1 ++ evs2). rewrite app_assoc. split; [reflexivity|].
    rewrite forallb_app, Hp1, Hp2. reflexivity.
Qed.

Lemma isOpenOrUpload_isPublishCall (evs : list Event) :
  forallb isOpenOrUpload evs = true -> forallb isPublishCall evs = true.
Proof.
  induction evs as [|e evs IH]; [reflexivity|]. simpl.
  intros H. apply andb_prop in H as [He Hevs]. rewrite (IH Hevs), andb_true_r.
  destruct e as [[] r|a]; try discriminate; reflexivity.
Qed.

Lemma upload_only (os : Oracle) (ctx : Context) (conf : config.S3) (w : World) :
  exists evs,
    snd (s3.upload os ctx conf w) = w ++ evs /\ forallb isPublishCall evs = true.
Proof.
  rewrite upload_run. cbv zeta.
  destruct (err (os w _)).
  { eexists [_]. split; reflexivity. }
  destruct (err (os _ (TmplApply ctx (config.Folder conf)))).
  { eexists [_; _]. rewrite <- app_assoc. split; reflexivity. }
  destruct (s3.typeFilters [] (config.Artifacts conf)) as [filters|e].
  - rewrite fanOut_runAll. simpl.
    match goal with
    | |- context [runAll ?fn ?l ?w0] =>
        destruct (runAll_uploadUnit_inputs os (s3.newS3Svc conf)
                    (out (os w (TmplApply ctx (config.Bucket conf))))
                    (out (os (w ++ [Called (TmplApply ctx (config.Bucket conf))
                                      (os w (TmplApply ctx (config.Bucket conf)))])
                            (TmplApply ctx (config.Folder conf))))
                    conf l w0) as (evs & Hw & Hk & _)
    end.
    rewrite Hw. eexists (_ :: _ :: evs). rewrite <- !app_assoc.
    split; [reflexivity|]. simpl. apply isOpenOrUpload_isPublishCall, Hk.
  - eexists [_; _]. rewrite <- app_assoc. split; reflexivity.
Qed.

Lemma publishCalls_register_nothing (evs : list Event) :
  forallb isPublishCall evs = true -> registered evs = [].
Proof.
  induction evs as [|e evs IH]; [reflexivity|]. simpl.
  intros H. apply andb_prop in H as [He Hevs].
  destruct e as [c r|a]; [|discriminate]. exact (IH Hevs).
Qed.

(** X8.  [Publish] only checks its precondition, resolves templates,
    opens files and uploads: it spawns no subprocess, writes no file and
    leaves the registry as it was.  When the precondition check fails,
    [Publish] returns that error and has made no other call: no template
    is resolved and nothing is opened or uploaded. *)
Theorem Publish_only_reads_and_uploads (os : Oracle) (ctx : Context) (w : World) :
  (exists evs,
      snd (s3.Publish os ctx w) = w ++ evs
      /\ forallb isPublishCall evs = true
      /\ List.filter isSubprocess evs = [])
  /\ registered (snd (s3.Publish os ctx w)) = registered w
  /\ (forall msg,
        config.S3s (Config ctx) <> [] ->
        err (os w (CheckPipe ctx "s3")) = Some msg ->
        s3.Publish os ctx w
        = (Fail (ErrExternal msg),
           w ++ [Called (CheckPipe ctx "s3") (os w (CheckPipe ctx "s3"))])).
Proof.
  assert (exists evs,
             snd (s3.Publish os ctx w) = w ++ evs /\ forallb isPublishCall evs = true)
    as (evs & Hw & Hp).
  { rewrite Publish_run. destruct (config.S3s (Config ctx)) as [|conf confs].
    - exists []. simpl. rewrite app_nil_r. split; reflexivity.
    - cbv zeta. destruct (err (os w (CheckPipe ctx "s3"))).
      + eexists [_]. split; reflexivity.
      + rewrite fanOut_runAll. cbn [snd].
        destruct (runAll_only isPublishCall (s3.upload os ctx) (upload_only os ctx)
                    (conf :: confs)
                    (w ++ [Called (CheckPipe ctx "s3") (os w (CheckPipe ctx "s3"))]))
          as (evs & Hw & Hp).
        rewrite Hw. eexists (_ :: evs). rewrite <- app_assoc.
        split; [reflexivity|]. simpl. exact Hp. }
  split; [|split].
  - exists evs. split; [exact Hw|]. split; [exact Hp|].
    apply filter_none. intros e Hin.
    rewrite forallb_forall in Hp. specialize (Hp e Hin).
    destruct e as [[] r|a]; try discriminate; reflexivity.
  - rewrite Hw, registered_app, (publishCalls_register_nothing evs Hp), app_nil_r.
    reflexivity.
  - intros msg Hcfg Herr. rewrite Publish_run.
    destruct (config.S3s (Config ctx)); [congruence|]. cbv zeta. rewrite Herr. reflexivity.
Qed.

(** ** The set-up of a package spec *)

Section Setup.

Variable pubKeyPath : string.
Variable os : Oracle.
Variable ctx : Context.
Variable spec : config.Alpine.

(** [packageSpec], call by call. *)
Lemma packageSpec_run (w : World) :
  let lp := localPathOf ctx spec in
  let c1 := Getwd in
  let w1 := w ++ [Called c1 (os w c1)] in
  let c2 := MkdirAll lp 448 in
  let w2 := w1 ++ [Called c2 (os w1 c2)] in
  let c3 := TemplateParse (config.Name spec) in
  let w3 := w2 ++ [Called c3 (os w2 c3)] in
  let c4 := TemplateExecute (descriptorData ctx spec) in
  let w4 := w3 ++ [Called c4 (os w3 c4)] in
  let c5 := WriteFile (filepath.Join [lp; alpine.apkBuildFileName]) (out (os w3 c4)) 420 in
  let w5 := w4 ++ [Called c5 (os w4 c5)] in
  let c6 := LookPath "abuild" in
  let w6 := w5 ++ [Called c6 (os w5 c6)] in
  alpine.packageSpec pubKeyPath os ctx spec w
  = match err (os w c1) with
    | Some msg => (Fail (ErrExternal msg), w1)
    | None =>
    match err (os w1 c2) with
    | Some msg => (Fail (ErrExternal msg), w2)
    | None =>
    match err (os w2 c3) with
    | Some msg => (Fail (ErrExternal msg), w3)
    | None =>
    match err (os w3 c4) with
    | Some msg => (Fail (ErrExternal msg), w4)
    | None =>
    match err (os w5 c6) with
    | Some msg => (Fail (ErrExternal msg), w6)
    | None =>
        forEach (List.filter alpine.binaryFilter (registered w))
          (alpine.packageArch os ctx spec (out (os w c1)) lp
             (filepath.Join [out (os w c1); lp]) (repoPathOf spec)
             (filepath.Dir pubKeyPath))
          w6
    end end end end end.
Proof.
  cbv zeta. unfold alpine.packageSpec, localPathOf, repoPathOf, descriptorData.
  rewrite run_bind. unfold FilterList.
  rewrite bind_try. destruct (err (os w Getwd)); [reflexivity|].
  rewrite bind_try. destruct (err (os _ (MkdirAll _ _))); [reflexivity|].
  unfold alpine.generateApkBuildFile, alpine.buildApkBuildFile.
  rewrite run_bind, bind_try. cbn [Info].
  destruct (err (os _ (TemplateParse _))); [reflexivity|].
  rewrite run_try.
  destruct (err (os _ (TemplateExecute _))); [reflexivity|].
  rewrite bind_sys, bind_try.
  destruct (err (os _ (LookPath _))); reflexivity.
Qed.

End Setup.

(** Every loop of chains extends the world. *)
Lemma chains_extend (os : Oracle) (ctx : Context) (spec : config.Alpine)
    (pwd localPath localPathAbs repoPath pubKeyName : string) (bins : list Artifact)
    (w : World) :
  exists evs,
    snd (forEach bins
           (alpine.packageArch os ctx spec pwd localPath localPathAbs repoPath pubKeyName)
           w) = w ++ evs.
Proof.
  destruct (forEach_added
              (alpine.packageArch os ctx spec pwd localPath localPathAbs repoPath
                 pubKeyName)
              (fun _ bin a =>
                 a = alpine.apkArtifact ctx spec localPath repoPath bin
                 \/ a = alpine.apkIndexArtifact localPath repoPath bin)
              (fun _ _ _ _ H => H)
              (fun bin w0 => packageArch_added os ctx spec pwd _ _ _ _ bin w0)
              bins w) as (evs & Hw & _).
  exists evs. exact Hw.
Qed.


(** ** Two binaries for one architecture *)

Lemma extends_ret {A} (a : A) : extends (ret a).
Proof. intros w. exists []. simpl. rewrite app_nil_r. reflexivity. Qed.

Lemma extends_fail {A} (e : error) : extends (@fail A e).
Proof. intros w. exists []. simpl. rewrite app_nil_r. reflexivity. Qed.

Lemma extends_bind {A B} (m : M A) (k : A -> M B) :
  extends m -> (forall a, extends (k a)) -> extends (bind m k).
Proof.
  intros Hm Hk w. unfold bind. destruct (Hm w) as (evs1 & H1).
  destruct (m w) as [[a|e] w1]; simpl in H1; subst w1.
  - destruct (Hk a (w ++ evs1)) as (evs2 & H2). exists (evs1 ++ evs2).
    rewrite H2, app_assoc. reflexivity.
  - exists evs1. reflexivity.
Qed.

Lemma extends_sys (os : Oracle) (c : Call) : extends (sys os c).
Proof. intros w. eexists. reflexivity. Qed.

Lemma extends_check (r : Response) : extends (check r).
Proof. unfold check. destruct (err r); [apply extends_fail|apply extends_ret]. Qed.

Lemma extends_try (os : Oracle) (c : Call) : extends (try os c).
Proof. apply extends_bind; [apply extends_sys|intros r; apply extends_check]. Qed.

Lemma extends_Add (a : Artifact) : extends (Add a).
Proof. intros w. eexists. reflexivity. Qed.

Lemma extends_toolError (r : Response) : extends (alpine.toolError r).
Proof. unfold alpine.toolError. destruct (err r); [apply extends_fail|apply extends_ret]. Qed.

Create HintDb extends.
#[local] Hint Resolve extends_ret extends_fail extends_sys extends_try extends_Add
  extends_toolError : extends.

Lemma forEach_app_ok {A} (body : A -> M unit) (l1 l2 : list A) (w w' : World) :
  forEach (l1 ++ l2) body w = (Ok tt, w') ->
  exists w1, forEach l1 body w = (Ok tt, w1) /\ forEach l2 body w1 = (Ok tt, w').
Proof.
  revert w. induction l1 as [|x l1 IH]; intros w.
  - intros H. exists w. split; [reflexivity|exact H].
  - simpl app. rewrite !forEach_cons.
    destruct (body x w) as [[[]|e] w0]; [apply IH|discriminate].
Qed.

Section SameArch.

Variable os : Oracle.
Variables (ctx : Context) (spec : config.Alpine).
Variables (pwd localPath localPathAbs repoPath pubKeyName : string).

Let chain := alpine.packageArch os ctx spec pwd localPath localPathAbs repoPath pubKeyName.
Let binDir (bin : Artifact) :=
  filepath.Join [localPath; alpine.alpineArch (Goarch bin)].

Lemma packageArch_needs_mkdir (bin : Artifact) (w : World) :
  err (os w (Mkdir (binDir bin) 448)) <> None -> fst (chain bin w) <> Ok tt.
Proof.
  unfold chain, alpine.packageArch. rewrite bind_try. fold (binDir bin).
  destruct (err (os w (Mkdir (binDir bin) 448))); [discriminate|congruence].
Qed.

Lemma packageArch_ok_mkdir (bin : Artifact) (w w' : World) :
  chain bin w = (Ok tt, w') ->
  exists r, err r = None /\ In (Called (Mkdir (binDir bin) 448) r) w'.
Proof.
  unfold chain, alpine.packageArch. rewrite bind_try. fold (binDir bin).
  destruct (err (os w (Mkdir (binDir bin) 448))) eqn:Hm; [discriminate|].
  match goal with
  | |- ?m (w ++ [?e]) = _ -> _ =>
      assert (extends m) as Hext
        by (repeat (apply extends_bind; [auto with extends|intros ?]);
            auto with extends);
      destruct (Hext (w ++ [e])) as (evs & Hevs)
  end.
  intros Hrun. rewrite Hrun in Hevs. simpl in Hevs. subst w'.
  exists (os w (Mkdir (binDir bin) 448)). split; [exact Hm|].
  apply in_or_app. left. apply in_or_app. right. left. reflexivity.
Qed.

Lemma chains_ok_keep (bins : list Artifact) (w w' : World) (e : Event) :
  forEach bins chain w = (Ok tt, w') -> In e w -> In e w'.
Proof.
  intros Hrun Hin.
  destruct (chains_extend os ctx spec pwd localPath localPathAbs repoPath pubKeyName
              bins w) as (evs & Hevs).
  fold chain in Hevs. rewrite Hrun in Hevs. simpl in Hevs. subst w'.
  apply in_or_app. left. exact Hin.
Qed.

Lemma chains_same_arch (l1 l2 l3 : list Artifact) (b1 b2 : Artifact) (w : World) :
  exclusiveMkdir os ->
  alpine.alpineArch (Goarch b1) = alpine.alpineArch (Goarch b2) ->
  fst (forEach (l1 ++ b1 :: l2 ++ b2 :: l3) chain w) <> Ok tt.
Proof.
  intros Hex Harch Hok.
  destruct (forEach (l1 ++ b1 :: l2 ++ b2 :: l3) chain w) as [r w'] eqn:Hrun.
  simpl in Hok. subst r.
  apply forEach_app_ok in Hrun as (wa & _ & Hrun).
  rewrite forEach_cons in Hrun.
  destruct (chain b1 wa) as [[[]|e] wb] eqn:Hb1; [|discriminate].
  apply packageArch_ok_mkdir in Hb1 as (r & Hr & Hin).
  apply forEach_app_ok in Hrun as (wc & Hl2 & Hrun).
  pose proof (chains_ok_keep _ _ _ _ Hl2 Hin) as Hin'.
  rewrite forEach_cons in Hrun.
  pose proof (packageArch_needs_mkdir b2 wc) as Hfail.
  destruct (chain b2 wc) as [[[]|e] wd]; [|discriminate].
  apply Hfail; [|reflexivity].
  unfold binDir. rewrite <- Harch. apply (Hex wc _ 448%Z 448%Z r Hin' Hr).
Qed.

End SameArch.

Lemma strictMkdir_exclusive : exclusiveMkdir strictMkdir.
Proof.
  intros h path perm perm' r Hin Hr. unfold strictMkdir.
  assert (existsb (createdDir path) h = true) as ->; [|discriminate].
  apply existsb_exists. exists (Called (Mkdir path perm) r). split; [exact Hin|].
  simpl. rewrite String.eqb_refl. apply bool_decide_eq_true. exact Hr.
Qed.

(** X10.  On a file system where [os.Mkdir] fails for a directory that an
    earlier successful [os.Mkdir] made, [Run] does not return nil when two
    of the eligible binaries translate to the same native architecture
    (two builds for amd64, or one for 386 and one for x86): both chains
    make the same directory under the working directory of the spec, and
    the second stops there. *)
Theorem same_arch_twice_fails (pubKeyPath : string) (os : Oracle) (ctx : Context)
    (w : World) (l1 l2 l3 : list Artifact) (b1 b2 : Artifact) :
  exclusiveMkdir os ->
  List.filter alpine.binaryFilter (registered w) = l1 ++ b1 :: l2 ++ b2 :: l3 ->
  alpine.alpineArch (Goarch b1) = alpine.alpineArch (Goarch b2) ->
  fst (alpine.Run pubKeyPath os ctx w) <> Ok tt.
Proof.
  intros Hex Hbins Harch. unfold alpine.Run.
  destruct (config.Alpines (Config ctx)) as [|spec specs]; [discriminate|].
  rewrite forEach_cons.
  destruct (alpine.packageSpec pubKeyPath os ctx spec w) as [[[]|e] w1] eqn:Hspec;
    [|discriminate].
  exfalso. rewrite packageSpec_run in Hspec. cbv zeta in Hspec.
  destruct (err (os w Getwd)); [discriminate|].
  destruct (err (os _ (MkdirAll _ _))); [discriminate|].
  destruct (err (os _ (TemplateParse _))); [discriminate|].
  destruct (err (os _ (TemplateExecute _))); [discriminate|].
  destruct (err (os _ (LookPath _))); [discriminate|].
  rewrite Hbins in Hspec.
  eapply chains_same_arch; [exact Hex|exact Harch|].
  rewrite Hspec. reflexivity.
Qed.

Lemma same_arch_twice_fails_witness :
  fst (alpine.Run "keys/abuild.rsa.pub" strictMkdir (sampleCtx [sampleSpec] [])
         [Added (sampleArtifact Binary "app"); Added (sampleArtifact Binary "tool")])
  <> Ok tt.
Proof.
  apply (same_arch_twice_fails "keys/abuild.rsa.pub" strictMkdir
           (sampleCtx [sampleSpec] [])
           [Added (sampleArtifact Binary "app"); Added (sampleArtifact Binary "tool")]
           [] [] [] (sampleArtifact Binary "app") (sampleArtifact Binary "tool")).
  - exact strictMkdir_exclusive.
  - reflexivity.
  - reflexivity.
Defined.

(** ** The calls of a chain *)

Section ChainRun.

Variable os : Oracle.
Variables (ctx : Context) (spec : config.Alpine).
Variables (pwd localPath localPathAbs repoPath pubKeyName : string).
Variable bin : Artifact.

(** [packageArch], call by call. *)
Lemma packageArch_run (w : World) :
  let binDir := filepath.Join [localPath; alpine.alpineArch (Goarch bin)] in
  let dest := filepath.Join [binDir; filepath.Base (Path bin)] in
  let c1 := Mkdir binDir 448 in
  let w1 := w ++ [Called c1 (os w c1)] in
  let c2 := Open (Path bin) in
  let w2 := w1 ++ [Called c2 (os w1 c2)] in
  let c3 := Create dest in
  let w3 := w2 ++ [Called c3 (os w2 c3)] in
  let c4 := Chmod dest 365 in
  let w4 := w3 ++ [Called c4 (os w3 c4)] in
  let c5 := Copy dest (Path bin) in
  let w5 := w4 ++ [Called c5 (os w4 c5)] in
  let cb := buildCall localPath localPathAbs bin in
  let wb := w5 ++ [Called cb (os w5 cb)] in
  let wa := wb ++ [Added (alpine.apkArtifact ctx spec localPath repoPath bin)] in
  let cs := signCall pwd localPath pubKeyName bin in
  let ws := wa ++ [Called cs (os wa cs)] in
  alpine.packageArch os ctx spec pwd localPath localPathAbs repoPath pubKeyName bin w
  = match err (os w c1) with
    | Some msg => (Fail (ErrExternal msg), w1)
    | None =>
    match err (os w1 c2) with
    | Some msg => (Fail (ErrExternal msg), w2)
    | None =>
    match err (os w2 c3) with
    | Some msg => (Fail (ErrExternal msg), w3)
    | None =>
    match err (os w4 c5) with
    | Some msg => (Fail (ErrExternal msg), w5)
    | None =>
    match err (os w5 cb) with
    | Some msg => (Fail (ErrMsg (msg +:+ ":" +:+ newline +:+ out (os w5 cb))), wb)
    | None =>
    match err (os wa cs) with
    | Some msg => (Fail (ErrMsg (msg +:+ ":" +:+ newline +:+ out (os wa cs))), ws)
    | None =>
        (Ok tt, ws ++ [Added (alpine.apkIndexArtifact localPath repoPath bin)])
    end end end end end end.
Proof.
  cbv zeta. unfold alpine.packageArch, buildCall, signCall.
  rewrite bind_try. destruct (err (os w (Mkdir _ _))); [reflexivity|].
  rewrite bind_try. destruct (err (os _ (Open _))); [reflexivity|].
  rewrite bind_try. destruct (err (os _ (Create _))); [reflexivity|].
  rewrite bind_sys, bind_try. destruct (err (os _ (Copy _ _))); [reflexivity|].
  rewrite bind_sys, bind_toolError.
  destruct (err (os _ (CombinedOutput "abuild" _ _ _))); [reflexivity|].
  rewrite bind_Add, bind_sys, bind_toolError.
  destruct (err (os _ (CombinedOutput "abuild-sign" _ _ _))); reflexivity.
Qed.

(** X11.  The chain of a binary makes its calls in this order: [Mkdir]
    of the directory of the architecture with mode 0700, [Open] of the
    binary, [Create] of its copy under that directory, [Chmod] of the copy
    to 0555, [Copy], then abuild and, after the package is registered,
    abuild-sign.  It returns nil exactly when [Mkdir], [Open], [Create],
    [Copy], abuild and abuild-sign succeed: the result of [Chmod] is not
    looked at.  On success the events added are these seven calls and the
    two registrations, the index last. *)
Theorem chain_succeeds_iff (w : World) :
  let binDir := filepath.Join [localPath; alpine.alpineArch (Goarch bin)] in
  let dest := filepath.Join [binDir; filepath.Base (Path bin)] in
  let c1 := Mkdir binDir 448 in
  let w1 := w ++ [Called c1 (os w c1)] in
  let c2 := Open (Path bin) in
  let w2 := w1 ++ [Called c2 (os w1 c2)] in
  let c3 := Create dest in
  let w3 := w2 ++ [Called c3 (os w2 c3)] in
  let c4 := Chmod dest 365 in
  let w4 := w3 ++ [Called c4 (os w3 c4)] in
  let c5 := Copy dest (Path bin) in
  let w5 := w4 ++ [Called c5 (os w4 c5)] in
  let cb := buildCall localPath localPathAbs bin in
  let wb := w5 ++ [Called cb (os w5 cb)] in
  let apk := alpine.apkArtifact ctx spec localPath repoPath bin in
  let wa := wb ++ [Added apk] in
  let cs := signCall pwd localPath pubKeyName bin in
  let idx := alpine.apkIndexArtifact localPath repoPath bin in
  let chain :=
    alpine.packageArch os ctx spec pwd localPath localPathAbs repoPath pubKeyName bin in
  (fst (chain w) = Ok tt
   <-> err (os w c1) = None /\ err (os w1 c2) = None /\ err (os w2 c3) = None
       /\ err (os w4 c5) = None /\ err (os w5 cb) = None /\ err (os wa cs) = None)
  /\ (fst (chain w) = Ok tt ->
      snd (chain w)
      = w ++ [Called c1 (os w c1); Called c2 (os w1 c2); Called c3 (os w2 c3);
              Called c4 (os w3 c4); Called c5 (os w4 c5); Called cb (os w5 cb);
              Added apk; Called cs (os wa cs); Added idx]).
Proof.
  cbv zeta. rewrite packageArch_run. cbv zeta.
  destruct (err (os w (Mkdir _ _))).
  { split; [split; [discriminate|intros (H & _); discriminate]|discriminate]. }
  destruct (err (os _ (Open _))).
  { split; [split; [discriminate|intros (_ & H & _); discriminate]|discriminate]. }
  destruct (err (os _ (Create _))).
  { split; [split; [discriminate|intros (_ & _ & H & _); discriminate]|discriminate]. }
  destruct (err (os _ (Copy _ _))).
  { split; [split; [discriminate|intros (_ & _ & _ & H & _); discriminate]|discriminate]. }
  destruct (err (os _ (buildCall _ _ _))).
  { split; [split; [discriminate|intros (_ & _ & _ & _ & H & _); discriminate]
           |discriminate]. }
  destruct (err (os _ (signCall _ _ _ _))).
  { split; [split; [discriminate|intros (_ & _ & _ & _ & _ & H); discriminate]
           |discriminate]. }
  split; [split; [intros _; repeat split|reflexivity]|].
  intros _. cbn [snd]. rewrite <- !app_assoc. reflexivity.
Qed.

End ChainRun.

Lemma chain_succeeds_iff_witness :
  fst (alpine.packageArch (failingOn (fun c => match c with Chmod _ _ => true | _ => false end)
                             "operation not permitted")
         (sampleCtx [sampleSpec] []) sampleSpec "/work" "dist/alpine-app"
         "/work/dist/alpine-app" "alpine/edge/main" "keys"
         (sampleArtifact Binary "app") []) = Ok tt.
Proof.
  apply (proj1 (chain_succeeds_iff
                  (failingOn (fun c => match c with Chmod _ _ => true | _ => false end)
                     "operation not permitted")
                  (sampleCtx [sampleSpec] []) sampleSpec "/work" "dist/alpine-app"
                  "/work/dist/alpine-app" "alpine/edge/main" "keys"
                  (sampleArtifact Binary "app") [])).
  repeat split.
Defined.

(** ** The binaries a run works on *)

(** What a loop emits is emitted by one of its iterations. *)
Lemma forEach_emitted {A B} (f : Event -> option B) (body : A -> M unit)
    (R : World -> A -> B -> Prop) :
  (forall w evs x b, R w x b -> R (w ++ evs) x b) ->
  (forall x w, exists evs,
      snd (body x w) = w ++ evs
      /\ forall b, In b (omap f evs) -> R (w ++ evs) x b) ->
  forall l w, exists evs,
    snd (forEach l body w) = w ++ evs
    /\ forall b, In b (omap f evs) -> exists x, In x l /\ R (w ++ evs) x b.
Proof.
  intros Hmono Hbody l. induction l as [|x l IH]; intros w.
  - exists []. simpl. rewrite app_nil_r. split; [reflexivity|]. intros b [].
  - rewrite forEach_cons. destruct (Hbody x w) as (evs1 & Hw1 & Hb1).
    destruct (body x w) as [[[]|e] w1]; simpl in Hw1; subst w1.
    + destruct (IH (w ++ evs1)) as (evs2 & Hw2 & Hb2).
      exists (evs1 ++ evs2). rewrite Hw2, app_assoc. split; [reflexivity|].
      intros b Hin. rewrite omap_app in Hin. apply in_app_or in Hin as [Hin|Hin].
      * exists x. split; [left; reflexivity|]. apply Hmono, Hb1, Hin.
      * destruct (Hb2 b Hin) as (y & Hy & HR). exists y. split; [right; exact Hy|exact HR].
    + exists evs1. split; [reflexivity|]. intros b Hin.
      exists x. split; [left; reflexivity|]. apply Hb1, Hin.
Qed.

Ltac name_events w :=
  lazymatch goal with
  | |- exists evs, ?W = w ++ evs /\ _ =>
      let l := events_of W w in exists l
  end.

Lemma packageArch_opened (os : Oracle) (ctx : Context) (spec : config.Alpine)
    (pwd localPath localPathAbs repoPath pubKeyName : string) (bin : Artifact)
    (w : World) :
  exists evs,
    snd (alpine.packageArch os ctx spec pwd localPath localPathAbs repoPath pubKeyName
           bin w) = w ++ evs
    /\ forall path, In path (omap openedPath evs) -> path = Path bin.
Proof.
  rewrite packageArch_run. cbv zeta.
  destruct (err (os w (Mkdir _ _)));
    [|destruct (err (os _ (Open _)));
      [|destruct (err (os _ (Create _)));
        [|destruct (err (os _ (Copy _ _)));
          [|destruct (err (os _ (buildCall _ _ _)));
            [|destruct (err (os _ (signCall _ _ _ _)))]]]]];
    cbn [snd]; name_events w;
    (split; [rewrite <- ?app_assoc; reflexivity|]);
    intros path Hin; simpl in Hin; decompose [or] Hin;
    congruence || contradiction.
Qed.

Lemma setupCalls_open_nothing (evs : list Event) :
  forallb isSetupCall evs = true -> omap openedPath evs = [].
Proof.
  induction evs as [|e evs IH]; [reflexivity|]. cbn [forallb].
  intros H. apply andb_prop in H as [He Hevs].
  change (omap openedPath (e :: evs))
    with (match openedPath e with
          | Some p => p :: omap openedPath evs
          | None => omap openedPath evs
          end).
  rewrite (IH Hevs). destruct e as [[] r|a]; try discriminate; reflexivity.
Qed.

Section Selection.

Variable pubKeyPath : string.
Variable os : Oracle.
Variable ctx : Context.

Lemma packageSpec_opened (spec : config.Alpine) (w : World) :
  exists evs,
    snd (alpine.packageSpec pubKeyPath os ctx spec w) = w ++ evs
    /\ forall path, In path (omap openedPath evs) ->
         exists bin,
           In bin (List.filter alpine.binaryFilter (registered (w ++ evs)))
           /\ Path bin = path.
Proof.
  destruct (packageSpec_cases pubKeyPath os ctx spec w) as (pre & Hpre & Hcases).
  pose proof (setupCalls_open_nothing pre Hpre) as Hopen.
  apply registered_setupCalls in Hpre.
  destruct Hcases as [(msg & ->)|(pwd & ->)].
  - exists pre. split; [reflexivity|]. rewrite Hopen. intros path [].
  - destruct (forEach_emitted openedPath
                (alpine.packageArch os ctx spec pwd (localPathOf ctx spec)
                   (filepath.Join [pwd; localPathOf ctx spec]) (repoPathOf spec)
                   (filepath.Dir pubKeyPath))
                (fun _ bin path => path = Path bin)
                (fun _ _ _ _ H => H)
                (fun bin w0 => packageArch_opened os ctx spec pwd _ _ _ _ bin w0)
                (List.filter alpine.binaryFilter (registered w)) (w ++ pre))
      as (evs & Hw & Ho).
    exists (pre ++ evs). rewrite Hw, <- app_assoc. split; [reflexivity|].
    intros path Hin. rewrite omap_app, Hopen in Hin. simpl in Hin.
    destruct (Ho path Hin) as (bin & Hbin & ->).
    exists bin. split; [|reflexivity].
    apply filter_In in Hbin as [Hreg Hf]. apply filter_In. split; [|exact Hf].
    rewrite registered_app. apply in_or_app. left. exact Hreg.
Qed.

Lemma Run_selection (w : World) :
  List.filter alpine.binaryFilter (registered (snd (alpine.Run pubKeyPath os ctx w)))
  = List.filter alpine.binaryFilter (registered w).
Proof.
  destruct (Run_added pubKeyPath os ctx w) as (evs & -> & Ha).
  rewrite registered_app, List.filter_app, (filter_none _ (registered evs)), app_nil_r;
    [reflexivity|].
  intros a Hin. destruct (Ha a Hin) as (spec & bin & _ & _ & _ & Hp).
  exact (producedBy_not_selected _ _ _ _ Hp).
Qed.

Lemma Run_opened (w : World) :
  exists evs,
    snd (alpine.Run pubKeyPath os ctx w) = w ++ evs
    /\ forall path, In path (omap openedPath evs) ->
         exists bin,
           In bin (List.filter alpine.binaryFilter (registered w)) /\ Path bin = path.
Proof.
  pose proof (Run_selection w) as Hsel. unfold alpine.Run in *.
  destruct (config.Alpines (Config ctx)) as [|spec0 specs].
  - exists []. simpl. rewrite app_nil_r. split; [reflexivity|]. intros path [].
  - destruct (forEach_emitted openedPath (alpine.packageSpec pubKeyPath os ctx)
                (fun w0 _ path =>
                   exists bin,
                     In bin (registered w0) /\ alpine.binaryFilter bin = true
                     /\ Path bin = path)) with (l := spec0 :: specs) (w := w)
      as (evs & Hw & Ho).
    + intros w0 evs spec path (bin & Hreg & Hrest). exists bin.
      split; [|exact Hrest]. rewrite registered_app. apply in_or_app. left. exact Hreg.
    + intros spec w0. destruct (packageSpec_opened spec w0) as (evs & Hw & Ho).
      exists evs. split; [exact Hw|]. intros path Hin.
      destruct (Ho path Hin) as (bin & Hbin & Hpath).
      apply filter_In in Hbin as [Hreg Hf]. exists bin. repeat split; assumption.
    + exists evs. split; [exact Hw|]. intros path Hin.
      destruct (Ho path Hin) as (_ & _ & bin & Hreg & Hf & Hpath).
      exists bin. split; [|exact Hpath].
      rewrite <- Hsel, Hw. apply filter_In. split; assumption.
Qed.

End Selection.

(** C5 (amended).  The binaries [Run] works on are exactly the registered
    artifacts of type [artifact.Binary], the plain binary of a build, whose
    OS is linux and whose ARM variant is empty; artifacts of any other
    type, [artifact.UploadableBinary] included, are not processed.  For
    each package spec, once the set-up has succeeded, the chains run over
    exactly these artifacts in registration order; and over a whole run
    every file opened is the file of such an artifact, and every artifact
    registered is built from one. *)
Theorem eligible_binaries (pubKeyPath : string) (os : Oracle) (ctx : Context)
    (w : World) :
  let eligible := fun a : Artifact =>
    Type' a = Binary /\ Goos a = "linux" /\ Goarm a = "" in
  let selected := List.filter alpine.binaryFilter (registered w) in
  (forall a, In a selected <-> In a (registered w) /\ eligible a)
  /\ (forall spec : config.Alpine,
        exists pre,
          forallb isSetupCall pre = true
          /\ ((exists msg,
                 alpine.packageSpec pubKeyPath os ctx spec w
                 = (Fail (ErrExternal msg), w ++ pre))
              \/ (exists pwd,
                    alpine.packageSpec pubKeyPath os ctx spec w
                    = forEach selected
                        (alpine.packageArch os ctx spec pwd (localPathOf ctx spec)
                           (filepath.Join [pwd; localPathOf ctx spec]) (repoPathOf spec)
                           (filepath.Dir pubKeyPath))
                        (w ++ pre))))
  /\ exists evs,
       snd (alpine.Run pubKeyPath os ctx w) = w ++ evs
       /\ (forall path, In path (omap openedPath evs) ->
             exists bin, In bin (registered w) /\ eligible bin /\ Path bin = path)
       /\ (forall a, In a (registered evs) ->
             exists spec bin,
               In spec (config.Alpines (Config ctx))
               /\ In bin (registered w) /\ eligible bin
               /\ producedBy ctx spec bin a).
Proof.
  intros eligible selected. split; [|split].
  - intros a. unfold selected, eligible. rewrite filter_In, binaryFilter_spec. tauto.
  - intros spec. apply packageSpec_cases.
  - destruct (Run_opened pubKeyPath os ctx w) as (evs & Hw & Ho).
    destruct (Run_added pubKeyPath os ctx w) as (evs' & Hw' & Ha).
    assert (evs' = evs) as -> by (rewrite Hw in Hw'; exact (app_inv_head _ _ _ (eq_sym Hw'))).
    exists evs. split; [exact Hw|]. split.
    + intros path Hin. destruct (Ho path Hin) as (bin & Hbin & Hpath).
      apply filter_In in Hbin as [Hreg Hf]. apply binaryFilter_spec in Hf.
      exists bin. repeat split; tauto.
    + intros a Hin. destruct (Ha a Hin) as (spec & bin & Hspec & Hreg & Hf & Hp).
      assert (In bin (List.filter alpine.binaryFilter (registered w))) as Hbin.
      { rewrite <- (Run_selection pubKeyPath os ctx w), Hw. apply filter_In.
        split; assumption. }
      apply filter_In in Hbin as [Hreg0 _]. apply binaryFilter_spec in Hf.
      exists spec, bin. repeat split; tauto.
Qed.
